(** * Smart-Tourist backend: realtime event layer and login route

    A shallow embedding of
    - [backend/routes/simple-login.js] ([generateToken], [POST /login]), and
    - the Socket.IO part of the backend server, listed after
      [backend/test-direct-login.js] (the [io.use] handshake middleware
      and the [io.on('connection')] handlers),
    together with the properties of the broadcast layer that the
    specification states.

    The two third-party libraries the code calls are modelled by what
    their documentation says they do:
    - [jsonwebtoken]: a compact JWS string is viewed symbolically as its
      claims together with the key it was signed with;
    - [socket.io]: the adapter is a finite map from room names to the set
      of socket ids in the room. *)

From Stdlib Require Import Ascii.
From stdpp Require Import gmap strings pretty.

Local Open Scope string_scope.
Local Open Scope list_scope.
Local Open Scope Z_scope.

#[local] Set Warnings "-register-all,-clear-no-such-hyp".

(** ** JavaScript values *)

Module Js.

(** The values that travel in handshake data, event payloads, JWT
    claims and database rows.  Numbers are the integers that print in
    plain decimal (identifiers, timestamps); [JUndefined] is the value
    of an absent argument or property. *)
Inductive JsValue :=
| JUndefined
| JNull
| JBool (b : bool)
| JNumber (n : Z)
| JString (s : string)
| JArray (xs : list JsValue)
| JObject (props : list (string * JsValue)).

(** The errors that the embedded code can throw or hand to a callback. *)
Inductive JsError :=
| TypeError
| Error (message : string)
| JsonWebTokenError (message : string)
| NotBeforeError
| TokenExpiredError.

(** ToBoolean: the test performed by [if (v)] and [!v]. *)
Definition truthy (v : JsValue) : bool :=
  match v with
  | JUndefined | JNull => false
  | JBool b => b
  | JNumber n => negb (n =? 0)
  | JString s => negb (String.eqb s EmptyString)
  | JArray _ | JObject _ => true
  end.

(** Whether an object has an own property of that name. *)
Fixpoint has_key (props : list (string * JsValue)) (k : string) : bool :=
  match props with
  | [] => false
  | (k', _) :: rest => String.eqb k' k || has_key rest k
  end.

(** ToString of a value that came as JSON; [None] when the conversion
    throws.  An array is joined with commas, its elements converted in
    turn, [null] and [undefined] giving the empty string.  An object is
    converted by its [toString] method: the inherited one gives
    ["[object Object]"], but an own property of that name, which in
    JSON data is never a function, hides it, and the conversion throws.
    A number is written in plain decimal, which is its string form when
    it is a safe integer (see [plain_decimal]). *)
Fixpoint convert (v : JsValue) : option string :=
  match v with
  | JUndefined => Some "undefined"
  | JNull => Some "null"
  | JBool true => Some "true"
  | JBool false => Some "false"
  | JNumber n => Some (pretty n)
  | JString s => Some s
  | JArray xs =>
      (fix join (l : list JsValue) : option string :=
         match l with
         | [] => Some EmptyString
         | x :: rest =>
             match match x with
                   | JUndefined | JNull => Some EmptyString
                   | _ => convert x
                   end with
             | None => None
             | Some sx =>
                 match rest with
                 | [] => Some sx
                 | _ :: _ =>
                     match join rest with
                     | None => None
                     | Some sr => Some (sx +:+ "," +:+ sr)
                     end
                 end
             end
         end) xs
  | JObject props =>
      if has_key props "toString" then None else Some "[object Object]"
  end.

(** [`${v}`] in a template literal: the string, or the [TypeError]
    thrown. *)
Definition to_string (v : JsValue) : JsError + string :=
  match convert v with
  | Some s => inr s
  | None => inl TypeError
  end.

(** The values whose numbers are safe integers (at most [2^53 - 1] in
    magnitude), for which the plain decimal of [convert] is the string
    form JavaScript gives. *)
Fixpoint plain_decimal (v : JsValue) : bool :=
  match v with
  | JNumber n => Z.abs n <=? 9007199254740991
  | JArray xs => forallb plain_decimal xs
  | _ => true
  end.

(** The values that are JSON: no [undefined] anywhere.  These are the
    values that pass through the transport unchanged; an argument that
    is [undefined] travels as [null]. *)
Fixpoint is_json (v : JsValue) : bool :=
  match v with
  | JUndefined => false
  | JArray xs => forallb is_json xs
  | JObject props =>
      forallb (λ kv, match kv with (_, x) => is_json x end) props
  | _ => true
  end.

(** Own property of an object literal: the first binding of the key. *)
Fixpoint obj_get (props : list (string * JsValue)) (k : string) : JsValue :=
  match props with
  | [] => JUndefined
  | (k', v) :: rest => if String.eqb k' k then v else obj_get rest k
  end.

(** [v.k] for a data property name [k] that is not a built-in member
    (the code reads [contacts], [userId], [role], [nbf], [exp],
    [status], [password], [id]).  Reading a property of [undefined]
    or [null] throws; a primitive or an array has no such property. *)
Definition get (v : JsValue) (k : string) : JsError + JsValue :=
  match v with
  | JUndefined | JNull => inl TypeError
  | JObject props => inr (obj_get props k)
  | _ => inr JUndefined
  end.

(** [v === 'literal'] *)
Definition strict_eq_string (v : JsValue) (lit : string) : bool :=
  match v with
  | JString s => String.eqb s lit
  | _ => false
  end.

(** Code that may throw: [inl e] is a thrown [e]. *)
Definition bind {A B} (m : JsError + A) (f : A → JsError + B) : JsError + B :=
  match m with
  | inl e => inl e
  | inr a => f a
  end.

(** [const { k: _, ...rest } = obj]: every own property but [k]. *)
Definition omit (k : string) (props : list (string * JsValue))
  : list (string * JsValue) :=
  filter (λ kv, kv.1 ≠ k) props.

End Js.

Notation "'let*' x := m 'in' k" := (Js.bind m (λ x, k))
  (at level 10, x name, m at level 100, k at level 200).

(** ** jsonwebtoken *)

Module Jwt.
Import Js.

(** A compact JWS string [header.payload.signature], seen symbolically:
    the claims it carries and the key its signature was made with.  The
    signature verifies under a secret exactly when the secret is that
    key; a forged or altered token is one whose key is not the server's. *)
Record Jws := { jws_payload : JsValue; jws_key : string }.

(** The value found in [socket.handshake.auth.token]. *)
Inductive Token :=
| Compact (j : Jws)
| Other (v : JsValue).

(** [!token] is [negb (token_truthy token)]; a compact JWS is a
    non-empty string. *)
Definition token_truthy (t : Token) : bool :=
  match t with
  | Compact _ => true
  | Other v => truthy v
  end.

(** The claims as they come back from [JSON.parse (JSON.stringify p)]:
    a property holding [undefined] is dropped, an array element holding
    [undefined] becomes [null]. *)
Fixpoint json (v : JsValue) : JsValue :=
  match v with
  | JArray xs =>
      JArray (map (λ x, match x with JUndefined => JNull | _ => json x end) xs)
  | JObject props =>
      JObject ((fix go (l : list (string * JsValue)) :=
                  match l with
                  | [] => []
                  | (k, x) :: rest =>
                      match x with
                      | JUndefined => go rest
                      | _ => (k, json x) :: go rest
                      end
                  end) props)
  | _ => v
  end.

(** [jwt.sign(claims, secret, { expiresIn })] for an object literal
    [claims] without registered claims of its own: the library adds
    [iat] (the time of issue) and [exp = iat + expiresIn], in seconds. *)
Definition sign (claims : list (string * JsValue)) (secret : string)
    (expiresIn now : Z) : JsError + Jws :=
  if String.eqb secret EmptyString then inl (Error "secretOrPrivateKey must have a value")
  else
    match json (JObject claims) with
    | JObject props =>
        inr {| jws_payload :=
                 JObject (props ++ [("iat", JNumber now);
                                    ("exp", JNumber (now + expiresIn))]);
               jws_key := secret |}
    | _ => inl (Error "payload is required")
    end.

(** [jwt.verify(token, secret)] at clock time [now] (seconds): the
    decoded claims, or the error thrown. *)
Definition verify (t : Token) (secret : string) (now : Z) : JsError + JsValue :=
  match t with
  | Other v =>
      if negb (truthy v) then inl (JsonWebTokenError "jwt must be provided")
      else match v with
           | JString _ => inl (JsonWebTokenError "jwt malformed")
           | _ => inl (JsonWebTokenError "jwt must be a string")
           end
  | Compact j =>
      if String.eqb secret EmptyString
      then inl (JsonWebTokenError "secret or public key must be provided")
      else if negb (String.eqb (jws_key j) secret)
      then inl (JsonWebTokenError "invalid signature")
      else
        let payload := jws_payload j in
        let* nbf := get payload "nbf" in
        let* _check :=
          match nbf with
          | JUndefined => inr tt
          | JNumber n => if now <? n then inl NotBeforeError else inr tt
          | _ => inl (JsonWebTokenError "invalid nbf value")
          end in
        let* exp := get payload "exp" in
        let* _check :=
          match exp with
          | JUndefined => inr tt
          | JNumber n => if n <=? now then inl TokenExpiredError else inr tt
          | _ => inl (JsonWebTokenError "invalid exp value")
          end in
        inr payload
  end.

End Jwt.

(** ** The process environment *)

(** [process.env]: an unset [JWT_SECRET] behaves as the empty string in
    both [jwt.sign] and [jwt.verify]; [JWT_EXPIRE], when set, is the
    lifetime it denotes, in seconds. *)
Record Env := {
  JWT_SECRET : string;
  JWT_EXPIRE : option Z;
  NODE_ENV : string
}.

(** ** routes/simple-login.js *)

Module SimpleLogin.
Import Js Jwt.

(** ['7d'] in seconds. *)
Definition seven_days : Z := 604800.

(** [generateToken]: [jwt.sign({ userId }, JWT_SECRET,
    { expiresIn: JWT_EXPIRE || '7d' })]. *)
Definition generateToken (env : Env) (now : Z) (userId : JsValue)
  : JsError + Jws :=
  sign [("userId", userId)] (JWT_SECRET env)
       (default seven_days (JWT_EXPIRE env)) now.

(** The collaborators of the [POST /login] handler: the [pg] client and
    [bcrypt.compare]. *)
Record Deps := {
  db_connect : JsError + unit;
  db_select_by_email : string → JsError + list (list (string * JsValue));
  db_touch : JsValue → JsError + unit;
  bcrypt_compare : JsValue → JsValue → JsError + bool
}.

(** The request after the express-validator chain has run. *)
Record Request := {
  validation_errors : list JsValue;
  req_email : JsValue;
  req_password : JsValue
}.

(** What the handler sends: the status and the fields of the JSON body. *)
Record Response := {
  status : Z;
  success : bool;
  message : string;
  errors : option (list JsValue);
  token : option Jws;
  user : option (list (string * JsValue));
  error : option string
}.

Definition failure (code : Z) (msg : string) : Response :=
  {| status := code; success := false; message := msg; errors := None;
     token := None; user := None; error := None |}.

Definition lower_ascii (c : ascii) : ascii :=
  let n := nat_of_ascii c in
  if ((65 <=? n) && (n <=? 90))%nat then ascii_of_nat (n + 32) else c.

Fixpoint lower (s : string) : string :=
  match s with
  | EmptyString => EmptyString
  | String c rest => String (lower_ascii c) (lower rest)
  end.

(** [email.toLowerCase()] *)
Definition toLowerCase (v : JsValue) : JsError + string :=
  match v with
  | JString s => inr (lower s)
  | _ => inl TypeError
  end.

Definition error_message (e : JsError) : string :=
  match e with
  | TypeError => "TypeError"
  | Error m | JsonWebTokenError m => m
  | NotBeforeError => "jwt not active"
  | TokenExpiredError => "jwt expired"
  end.

(** The body of the [try] block of [router.post('/login', ...)]; a
    thrown error is [inl]. *)
Definition login_try (env : Env) (deps : Deps) (now : Z) (req : Request)
  : JsError + Response :=
  if negb (Nat.eqb (length (validation_errors req)) 0) then
    inr {| status := 400; success := false; message := "Validation failed";
           errors := Some (validation_errors req);
           token := None; user := None; error := None |}
  else
    let* _connected := db_connect deps in
    let* email := toLowerCase (req_email req) in
    let* rows := db_select_by_email deps email in
    match rows with
    | [] => inr (failure 401 "Invalid credentials")
    | row :: _ =>
        if negb (strict_eq_string (obj_get row "status") "active") then
          inr (failure 401 "Account is not active")
        else
          let* isPasswordValid :=
            bcrypt_compare deps (req_password req) (obj_get row "password") in
          if negb isPasswordValid then
            inr (failure 401 "Invalid credentials")
          else
            let* _updated := db_touch deps (obj_get row "id") in
            let* tok := generateToken env now (obj_get row "id") in
            let userResponse := omit "password" row in
            inr {| status := 200; success := true;
                   message := "Login successful"; errors := None;
                   token := Some tok; user := Some userResponse;
                   error := None |}
    end.

(** The handler with its [catch] clause.  The [finally] clause closes
    the database client and does not touch the response. *)
Definition login (env : Env) (deps : Deps) (now : Z) (req : Request)
  : Response :=
  match login_try env deps now req with
  | inr response => response
  | inl e =>
      {| status := 500; success := false; message := "Login failed";
         errors := None; token := None; user := None;
         error := Some (if String.eqb (NODE_ENV env) "development"
                        then error_message e else EmptyString) |}
  end.

End SimpleLogin.

(** ** The Socket.IO layer of the server *)

Module Server.
Import Js Jwt.

(** *** The adapter: rooms and their members *)

Abbreviation Rooms := (gmap string (gset string)).

(** The sockets currently in a room; a room that does not exist has no
    members. *)
Definition members (rs : Rooms) (room : string) : gset string :=
  default ∅ (rs !! room).

(** [socket.join(room)]: the room is created on first use. *)
Definition join (sid room : string) (rs : Rooms) : Rooms :=
  <[room := {[sid]} ∪ members rs room]> rs.

(** What the library does when a socket closes: the socket leaves every
    room, and a room left empty is deleted. *)
Definition leave_all (sid : string) (rs : Rooms) : Rooms :=
  omap (λ s : gset string,
          let s' := s ∖ {[sid]} in
          if decide (s' = ∅) then None else Some s') rs.

(** One packet handed to one socket.  [payload] is the argument given
    to [emit]; the transport carries it as JSON, so that [undefined]
    reaches the recipient as [null]. *)
Record Delivery := {
  recipient : string;
  event : string;
  payload : JsValue
}.

(** *** Event handlers as computations

    A handler reads the rooms, emits packets and may throw; what was
    emitted before a throw stays emitted. *)

Definition Handler (A : Type) : Type :=
  Rooms → list Delivery * (JsError + A).

#[export] Instance handler_ret : MRet Handler :=
  λ A a _, ([], inr a).

#[export] Instance handler_bind : MBind Handler :=
  λ A B f m rs,
    match m rs with
    | (out, inl e) => (out, inl e)
    | (out, inr a) => let '(out', r) := f a rs in (out ++ out', r)
    end.

Definition lift {A} (r : JsError + A) : Handler A :=
  λ _, ([], r).

(** [socket.to(room).emit(ev, data)]: to every socket in the room but
    the sender. *)
Definition to_emit (sender room ev : string) (data : JsValue) : Handler unit :=
  λ rs,
    ((λ r, {| recipient := r; event := ev; payload := data |})
       <$> elements (members rs room ∖ {[sender]}),
     inr tt).

(** [xs.forEach(f)]: only an array has the method. *)
Definition forEach (xs : JsValue) (f : JsValue → Handler unit) : Handler unit :=
  match xs with
  | JArray l => foldr (λ x k, f x ;; k) (mret tt) l
  | _ => lift (inl TypeError)
  end.

(** [socket.on('device_update', ...)] *)
Definition on_device_update (socket : string) (data : JsValue) : Handler unit :=
  to_emit socket "admin_room" "device_update" data.

(** The callback of [data.contacts.forEach]:
    [socket.to(`user_${contact}`).emit('emergency_notification', data)]. *)
Definition notify (socket : string) (data contact : JsValue) : Handler unit :=
  name ← lift (to_string contact);
  to_emit socket ("user_" +:+ name) "emergency_notification" data.

(** [socket.on('emergency_alert', ...)] *)
Definition on_emergency_alert (socket : string) (data : JsValue) : Handler unit :=
  to_emit socket "admin_room" "emergency_alert" data ;;
  contacts ← lift (get data "contacts");
  if truthy contacts then forEach contacts (notify socket data)
  else mret tt.

(** [socket.on('location_update', ...)] *)
Definition on_location_update (socket : string) (data : JsValue) : Handler unit :=
  to_emit socket "admin_room" "location_update" data.

(** An incoming event runs the listener registered for its name, if any. *)
Definition route (socket ev : string) (data : JsValue) : Handler unit :=
  if String.eqb ev "device_update" then on_device_update socket data
  else if String.eqb ev "emergency_alert" then on_emergency_alert socket data
  else if String.eqb ev "location_update" then on_location_update socket data
  else mret tt.

Definition sent {A} (o : list Delivery * (JsError + A)) : list Delivery := o.1.

Definition thrown {A} (o : list Delivery * (JsError + A)) : option JsError :=
  match o.2 with
  | inl e => Some e
  | inr _ => None
  end.

(** *** Handshake and connection *)

(** The fields the middleware stores on the socket. *)
Record Socket := { userId : JsValue; userRole : JsValue }.

(** [io.use((socket, next) => ...)]: [inr] is [next()], [inl e] is
    [next(e)]. *)
Definition io_use (env : Env) (now : Z) (token : Token) : JsError + Socket :=
  if negb (token_truthy token) then inl (Error "Authentication error")
  else
    match (let* decoded := verify token (JWT_SECRET env) now in
           let* uid := get decoded "userId" in
           let* role := get decoded "role" in
           inr {| userId := uid; userRole := role |}) with
    | inr socket => inr socket
    | inl _ => inl (Error "Authentication error")
    end.

(** The guard of the admin-room join. *)
Definition is_admin_role (role : JsValue) : bool :=
  strict_eq_string role "admin" || strict_eq_string role "government".

(** The head of [io.on('connection', ...)]: the log line
    [`User ${socket.userId} connected via WebSocket`], then the joins.
    A [userId] that cannot be converted throws at the log line, before
    any join. *)
Definition on_connection (sid : string) (socket : Socket) (rs : Rooms)
  : JsError + Rooms :=
  let* _logged := to_string (userId socket) in
  let* name := to_string (userId socket) in
  let rs := join sid ("user_" +:+ name) rs in
  inr (if is_admin_role (userRole socket) then join sid "admin_room" rs
       else rs).

(** [socket.on('disconnect', ...)]: the log line
    [`User ${socket.userId} disconnected from WebSocket`]. *)
Definition on_disconnect (socket : Socket) : JsError + unit :=
  let* _logged := to_string (userId socket) in
  inr tt.

(** *** The server as a transition system *)

(** [running] turns false when a listener throws: the error reaches the
    [uncaughtException] handler, which exits the process.  The state
    then still shows the registry as it was at the throw. *)
Record State := {
  rooms : Rooms;
  sockets : gmap string Socket;
  running : bool
}.

Definition initial : State :=
  {| rooms := ∅; sockets := ∅; running := true |}.

Inductive Action :=
| Connect (sid : string) (token : Token) (now : Z)
| Emit (sid ev : string) (data : JsValue)
| Disconnect (sid : string).

(** One step of the server, with the packets it sends.  A connecting
    socket has a fresh 20-character id and is put in the room of that
    name by the library before the connection listener runs; a closing
    socket has left every room by the time its [disconnect] listener,
    which only logs, runs. *)
Definition exec (env : Env) (st : State) (a : Action)
  : option (State * list Delivery) :=
  if negb (running st) then None
  else
    match a with
    | Connect sid token now =>
        match sockets st !! sid with
        | Some _ => None
        | None =>
            if negb (Nat.eqb (String.length sid) 20) then None
            else
              match io_use env now token with
              | inl _ => Some (st, [])
              | inr socket =>
                  let registered := join sid sid (rooms st) in
                  match on_connection sid socket registered with
                  | inr joined =>
                      Some ({| rooms := joined;
                               sockets := <[sid := socket]> (sockets st);
                               running := true |}, [])
                  | inl _ =>
                      Some ({| rooms := registered;
                               sockets := <[sid := socket]> (sockets st);
                               running := false |}, [])
                  end
              end
        end
    | Emit sid ev data =>
        match sockets st !! sid with
        | None => None
        | Some _ =>
            let o := route sid ev data (rooms st) in
            match thrown o with
            | None => Some (st, sent o)
            | Some _ =>
                Some ({| rooms := rooms st; sockets := sockets st;
                         running := false |}, sent o)
            end
        end
    | Disconnect sid =>
        match sockets st !! sid with
        | None => None
        | Some socket =>
            Some ({| rooms := leave_all sid (rooms st);
                     sockets := delete sid (sockets st);
                     running := match on_disconnect socket with
                                | inr _ => true
                                | inl _ => false
                                end |}, [])
        end
    end.

(** A run: the final state and every packet sent on the way. *)
Fixpoint run (env : Env) (st : State) (tr : list Action)
  : option (State * list Delivery) :=
  match tr with
  | [] => Some (st, [])
  | a :: rest =>
      match exec env st a with
      | None => None
      | Some (st', out) =>
          match run env st' rest with
          | None => None
          | Some (st'', out') => Some (st'', out ++ out')
          end
      end
  end.

Inductive reachable (env : Env) : State → Prop :=
| reachable_initial : reachable env initial
| reachable_step st a st' out :
    reachable env st → exec env st a = Some (st', out) → reachable env st'.

Definition is_connect_of (sid : string) (a : Action) : bool :=
  match a with
  | Connect sid' _ _ => String.eqb sid' sid
  | _ => false
  end.

(** A run in which the id [sid] is not given to a new connection (the
    library never issues an id twice). *)
Definition no_reconnect (sid : string) (tr : list Action) : bool :=
  forallb (λ a, negb (is_connect_of sid a)) tr.

(** Room members are connected sockets, and the members of
    [admin_room] passed the admin-room guard. *)
Definition consistent (st : State) : Prop :=
  (∀ room x, x ∈ members (rooms st) room → is_Some (sockets st !! x)) ∧
  (∀ x, x ∈ members (rooms st) "admin_room" →
        ∃ socket, sockets st !! x = Some socket ∧
                  is_admin_role (userRole socket) = true).

End Server.

(** ** A small deployment used in the examples *)

Module Examples.
Import Js Jwt SimpleLogin Server.

Definition env0 : Env :=
  {| JWT_SECRET := "s3cret"; JWT_EXPIRE := None; NODE_ENV := "production" |}.

Definition sidA : string := "AAAAAAAAAAAAAAAAAAAA".
Definition sidB : string := "BBBBBBBBBBBBBBBBBBBB".

(** A token the server's key has signed, with the given claims. *)
Definition signed (claims : list (string * JsValue)) : Token :=
  Compact {| jws_payload := JObject claims; jws_key := "s3cret" |}.

(** The same claims under a signature made with another key. *)
Definition forged (claims : list (string * JsValue)) : Token :=
  Compact {| jws_payload := JObject claims; jws_key := "guess" |}.

Definition admin_token : Token :=
  signed [("userId", JNumber 1); ("role", JString "admin")].

Definition user_token : Token :=
  signed [("userId", JNumber 42); ("role", JString "user")].

(** A (admin, subject 1) connects, then B (user, subject 42). *)
Definition two_connected : list Action :=
  [Connect sidA admin_token 100; Connect sidB user_token 100].

Definition st2 : State :=
  match run env0 initial two_connected with
  | Some (st, _) => st
  | None => initial
  end.

(** The state once A alone is connected. *)
Definition st1 : State :=
  match exec env0 initial (Connect sidA admin_token 100) with
  | Some (st, _) => st
  | None => initial
  end.

(** The state after B has closed again. *)
Definition st3 : State :=
  match exec env0 st2 (Disconnect sidB) with
  | Some (st, _) => st
  | None => initial
  end.

(** An alert of B naming itself and subject 1 as contacts. *)
Definition alert_42_1 : JsValue :=
  JObject [("contacts", JArray [JNumber 42; JNumber 1])].

(** A [users] row and collaborators that accept its password. *)
Definition row7 : list (string * JsValue) :=
  [("id", JNumber 7); ("name", JString "Asha");
   ("email", JString "asha@example.org"); ("password", JString "$2a$hash");
   ("role", JString "admin"); ("status", JString "active")].

Definition deps0 : Deps :=
  {| db_connect := inr tt;
     db_select_by_email := λ email,
       inr (if String.eqb email "asha@example.org" then [row7] else []);
     db_touch := λ _, inr tt;
     bcrypt_compare := λ _ _, inr true |}.

Definition req0 : Request :=
  {| validation_errors := [];
     req_email := JString "Asha@Example.org";
     req_password := JString "password123" |}.

End Examples.

(** ** The error kinds the specification names for the handshake *)

Inductive AuthError := Missing | Invalid.

(** ** The rooms of a session *)

Module Sessions.
Import Js Jwt Server.

(** The rooms a socket is put in when it connects: the room of its own
    id (the library) and, when its [userId] can be converted, its
    personal room and [admin_room] behind the guard. *)
Definition joined_rooms (sid : string) (socket : Socket) : list string :=
  sid :: match to_string (userId socket) with
         | inr name =>
             ("user_" +:+ name)
               :: (if is_admin_role (userRole socket) then ["admin_room"]
                   else [])
         | inl _ => []
         end.

(** Membership is what the connection listener made it: a socket is in
    a room exactly when it is connected and the room is one of those it
    joined on connecting. *)
Definition membership_exact (st : State) : Prop :=
  ∀ room sid,
    sid ∈ members (rooms st) room ↔
    ∃ socket, sockets st !! sid = Some socket ∧
              room ∈ joined_rooms sid socket.

(** The contacts an alert names, when its payload is well formed. *)
Definition contacts_of (data : JsValue) : list JsValue :=
  match get data "contacts" with
  | inr (JArray l) => l
  | _ => []
  end.

End Sessions.

(** ** routes/simple-login.js: [GET /verify] *)

Module VerifyRoute.
Import Js Jwt SimpleLogin.

(** A word of the [Authorization] header, as [split(' ')] cuts it: a
    compact JWS, or any other run of characters without a space
    (possibly empty). *)
Inductive Word :=
| WJws (j : Jws)
| WText (s : string).

Definition word_token (w : Word) : Token :=
  match w with
  | WJws j => Compact j
  | WText s => Other (JString s)
  end.

(** [req.headers.authorization]: absent, or the list of its words. *)
Record VerifyRequest := { authorization : option (list Word) }.

(** [req.headers.authorization?.split(' ')[1]] *)
Definition bearer (req : VerifyRequest) : Token :=
  match authorization req with
  | None => Other JUndefined
  | Some words =>
      match words !! 1%nat with
      | Some w => word_token w
      | None => Other JUndefined
      end
  end.

(** The [pg] client as the handler uses it. *)
Record VerifyDeps := {
  vdb_connect : JsError + unit;
  db_select_by_id : JsValue → JsError + list (list (string * JsValue))
}.

(** The status and the fields of the JSON body; a successful body has
    no [message]. *)
Record VerifyResponse := {
  v_status : Z;
  v_success : bool;
  v_message : option string;
  v_user : option (list (string * JsValue))
}.

Definition unauthorized (msg : string) : VerifyResponse :=
  {| v_status := 401; v_success := false; v_message := Some msg;
     v_user := None |}.

(** The body of the [try] block of [router.get('/verify', ...)]. *)
Definition verify_try (env : Env) (deps : VerifyDeps) (now : Z)
    (req : VerifyRequest) : JsError + VerifyResponse :=
  let token := bearer req in
  if negb (token_truthy token) then inr (unauthorized "No token provided")
  else
    let* decoded := verify token (JWT_SECRET env) now in
    let* _connected := vdb_connect deps in
    let* userId := get decoded "userId" in
    let* rows := db_select_by_id deps userId in
    match rows with
    | [] => inr (unauthorized "Invalid token")
    | row :: _ =>
        inr {| v_status := 200; v_success := true; v_message := None;
               v_user := Some row |}
    end.

(** The handler with its [catch] clause, which answers 401 for every
    error; the [finally] clause closes the database client and does not
    touch the response. *)
Definition verify_route (env : Env) (deps : VerifyDeps) (now : Z)
    (req : VerifyRequest) : VerifyResponse :=
  match verify_try env deps now req with
  | inr response => response
  | inl _ => unauthorized "Invalid token"
  end.

End VerifyRoute.

(** ** The rate limiter of the server *)

Module RateLimit.
Import Js.

(** The text of a variable is its UTF-8 bytes.  White space that
    [parseInt] skips: the one-byte characters TAB, LF, VT, FF, CR and
    SP, *)
Definition is_space (c : ascii) : bool :=
  let n := nat_of_ascii c in
  ((n =? 32) || ((9 <=? n) && (n <=? 13)))%nat.

(** NBSP (U+00A0), *)
Definition is_space2 (a b : ascii) : bool :=
  ((nat_of_ascii a =? 194) && (nat_of_ascii b =? 160))%nat.

(** and U+1680, U+2000 to U+200A, the line and paragraph separators
    U+2028 and U+2029, U+202F, U+205F, U+3000 and the byte order mark
    U+FEFF. *)
Definition is_space3 (a b c : ascii) : bool :=
  let x := nat_of_ascii a in
  let y := nat_of_ascii b in
  let z := nat_of_ascii c in
  (((x =? 225) && (y =? 154) && (z =? 128)) ||
   ((x =? 226) && (y =? 128) &&
    (((128 <=? z) && (z <=? 138)) || (z =? 168) || (z =? 169) || (z =? 175))) ||
   ((x =? 226) && (y =? 129) && (z =? 159)) ||
   ((x =? 227) && (y =? 128) && (z =? 128)) ||
   ((x =? 239) && (y =? 187) && (z =? 191)))%nat.

Fixpoint skip_spaces (s : string) : string :=
  match s with
  | String a rest1 =>
      if is_space a then skip_spaces rest1
      else if (nat_of_ascii a <? 128)%nat then s
      else
        match rest1 with
        | String b rest2 =>
            if is_space2 a b then skip_spaces rest2
            else
              match rest2 with
              | String c rest3 =>
                  if is_space3 a b c then skip_spaces rest3 else s
              | EmptyString => s
              end
        | EmptyString => s
        end
  | EmptyString => s
  end.

(** The value of a character as a digit of the radix, if it is one. *)
Definition digit_value (radix : Z) (c : ascii) : option Z :=
  let n := Z.of_nat (nat_of_ascii c) in
  let v := if (48 <=? n) && (n <=? 57) then Some (n - 48)
           else if (97 <=? n) && (n <=? 122) then Some (n - 87)
           else if (65 <=? n) && (n <=? 90) then Some (n - 55)
           else None in
  match v with
  | Some d => if d <? radix then Some d else None
  | None => None
  end.

(** The longest prefix of digits, read from the accumulator on. *)
Fixpoint read_digits (radix acc : Z) (s : string) : Z :=
  match s with
  | String c rest =>
      match digit_value radix c with
      | Some d => read_digits radix (acc * radix + d) rest
      | None => acc
      end
  | EmptyString => acc
  end.

(** The strings made of decimal digits only. *)
Fixpoint all_decimal (s : string) : bool :=
  match s with
  | String c rest => bool_decide (is_Some (digit_value 10 c)) && all_decimal rest
  | EmptyString => true
  end.

Definition starts_with_digit (radix : Z) (s : string) : bool :=
  match s with
  | String c _ => bool_decide (is_Some (digit_value radix c))
  | EmptyString => false
  end.

(** The digits after the sign: a [0x] or [0X] prefix selects radix 16;
    without a digit to read the result is [NaN], here [None]. *)
Definition parse_magnitude (s : string) : option Z :=
  let '(radix, s) :=
    match s with
    | String "0" (String "x" rest) | String "0" (String "X" rest) => (16, rest)
    | _ => (10, s)
    end in
  if starts_with_digit radix s then Some (read_digits radix 0 s) else None.

(** A number as [parseInt] returns it: [NaN], an integer that a double
    holds exactly, or a double beyond the safe integers (the integer
    rounded, or an infinity), whose value is left open. *)
Inductive Num := NotANumber | Exact (n : Z) | Beyond.

Definition to_double (negative : bool) (m : Z) : Num :=
  if m <=? 9007199254740992 then Exact (if negative then - m else m)
  else Beyond.

(** [parseInt(s)] without a radix argument. *)
Definition parseInt (s : string) : Num :=
  let '(negative, s') :=
    match skip_spaces s with
    | String "-" rest => (true, rest)
    | String "+" rest => (false, rest)
    | s' => (false, s')
    end in
  match parse_magnitude s' with
  | Some m => to_double negative m
  | None => NotANumber
  end.

(** [parseInt(process.env.NAME) || fallback]: an unset variable reads
    as [undefined], which does not parse; [NaN] and [0] are falsy. *)
Definition env_int_or (value : option string) (fallback : Z) : Num :=
  match value with
  | None => Exact fallback
  | Some s =>
      match parseInt s with
      | NotANumber => Exact fallback
      | Exact n => if n =? 0 then Exact fallback else Exact n
      | Beyond => Beyond
      end
  end.

(** The two variables [rateLimit] is configured from. *)
Record LimitEnv := {
  RATE_LIMIT_WINDOW_MS : option string;
  RATE_LIMIT_MAX_REQUESTS : option string
}.

(** The options object given to [rateLimit]. *)
Record Limiter := { windowMs : Num; max : Num; limit_message : JsValue }.

Definition limiter (env : LimitEnv) : Limiter :=
  {| windowMs := env_int_or (RATE_LIMIT_WINDOW_MS env) (15 * 60 * 1000);
     max := env_int_or (RATE_LIMIT_MAX_REQUESTS env) 100;
     limit_message :=
       JObject [("error",
                 JString "Too many requests from this IP, please try again later.")] |}.

End RateLimit.

(** ** Further inputs used in the examples *)

Module Examples2.
Import Js Jwt SimpleLogin Server.

(** A second administrator socket. *)
Definition sidC : string := "CCCCCCCCCCCCCCCCCCCC".

Definition government_token : Token :=
  Examples.signed [("userId", JNumber 2); ("role", JString "government")].

(** A, B and then C (government, subject 2) are connected. *)
Definition st4 : State :=
  match exec Examples.env0 Examples.st2 (Connect sidC government_token 100) with
  | Some (st, _) => st
  | None => initial
  end.

(** The token of the example login, as the client sends it back. *)
Definition login_token : Jws :=
  {| jws_payload :=
       JObject [("userId", JNumber 7); ("iat", JNumber 1000);
                ("exp", JNumber 605800)];
     jws_key := "s3cret" |}.

Definition bearer_request : VerifyRoute.VerifyRequest :=
  {| VerifyRoute.authorization :=
       Some [VerifyRoute.WText "Bearer"; VerifyRoute.WJws login_token] |}.

(** The row the [/verify] query selects: no [password] column. *)
Definition row7_public : list (string * JsValue) :=
  [("id", JNumber 7); ("name", JString "Asha");
   ("email", JString "asha@example.org");
   ("role", JString "admin"); ("status", JString "active")].

Definition vdeps0 : VerifyRoute.VerifyDeps :=
  {| VerifyRoute.vdb_connect := inr tt;
     VerifyRoute.db_select_by_id := λ id,
       inr (match id with
            | JNumber 7 => [row7_public]
            | _ => []
            end) |}.

(** Collaborators that find the row but reject the password. *)
Definition deps_wrong_password : Deps :=
  {| db_connect := inr tt;
     db_select_by_email := db_select_by_email Examples.deps0;
     db_touch := λ _, inr tt;
     bcrypt_compare := λ _ _, inr false |}.

(** A suspended account. *)
Definition row8 : list (string * JsValue) :=
  [("id", JNumber 8); ("email", JString "sam@example.org");
   ("password", JString "$2a$other"); ("status", JString "suspended")].

Definition deps_suspended : Deps :=
  {| db_connect := inr tt;
     db_select_by_email := λ _, inr [row8];
     db_touch := λ _, inr tt;
     bcrypt_compare := λ _ _, inr true |}.

Definition env_no_secret : Env :=
  {| JWT_SECRET := EmptyString; JWT_EXPIRE := None; NODE_ENV := "production" |}.

End Examples2.

(** ** The database start-up of the server *)

Module Startup.
Import Js.

(** The MongoDB variables of [process.env]. *)
Record MongoEnv := {
  MONGODB_URI : option string;
  MONGODB_TEST_URI : option string
}.

(** [process.env.NAME] as a value. *)
Definition env_value (v : option string) : JsValue :=
  match v with
  | Some s => JString s
  | None => JUndefined
  end.

(** [a || b] *)
Definition or_else (a b : JsValue) : JsValue :=
  if truthy a then a else b.

(** [NODE_ENV === 'test' ? MONGODB_TEST_URI : MONGODB_URI || '...'];
    the conditional binds weaker than [||]. *)
Definition mongoURI (env : Env) (menv : MongoEnv) : JsValue :=
  if String.eqb (NODE_ENV env) "test" then env_value (MONGODB_TEST_URI menv)
  else or_else (env_value (MONGODB_URI menv))
         (JString "mongodb://localhost:27017/tourist-safety-platform").

(** One [collection.createIndex(keys, options)] call. *)
Record Index := {
  model : string;
  keys : list (string * JsValue);
  unique : bool
}.

(** What the start-up does to the outside, in order. *)
Inductive Effect :=
| ConsoleLog (line : string) (arg : option JsValue)
| ConsoleError (line : string) (err : JsError)
| MongooseConnect (uri : JsValue)
| Require (path : string)
| CreateIndex (i : Index).

(** The outside: each call returns or throws. *)
Record Mongo := {
  mongoose_connect : JsValue → JsError + unit;
  require_model : string → JsError + unit;
  create_index : Index → JsError + unit
}.

(** A sequence of awaited calls: the effects so far and the outcome. *)
Definition Script (A : Type) : Type := list Effect * (JsError + A).

#[export] Instance script_ret : MRet Script := λ A a, ([], inr a).

#[export] Instance script_bind : MBind Script :=
  λ A B f m,
    match m with
    | (effs, inl e) => (effs, inl e)
    | (effs, inr a) => let '(effs', r) := f a in (effs ++ effs', r)
    end.

Definition perform (e : Effect) (r : JsError + unit) : Script unit := ([e], r).

Definition console_log (line : string) (arg : option JsValue) : Script unit :=
  perform (ConsoleLog line arg) (inr tt).

Definition console_error (line : string) (err : JsError) : Script unit :=
  perform (ConsoleError line err) (inr tt).

(** [try { body } catch (error) { handler }] *)
Definition try_catch (body : Script unit) (handler : JsError → Script unit)
  : Script unit :=
  match body with
  | (effs, inl e) => let '(effs', r) := handler e in (effs ++ effs', r)
  | (effs, inr a) => (effs, inr a)
  end.

(** The fourteen indexes of [createIndexes], in the order of the source. *)
Definition indexes : list Index :=
  [ {| model := "Tourist"; keys := [("email", JNumber 1)]; unique := true |};
    {| model := "Tourist"; keys := [("touristId", JNumber 1)]; unique := true |};
    {| model := "Tourist"; keys := [("location.coordinates", JString "2dsphere")];
       unique := false |};
    {| model := "Tourist"; keys := [("status", JNumber 1)]; unique := false |};
    {| model := "Tourist"; keys := [("createdAt", JNumber (-1))]; unique := false |};
    {| model := "Device"; keys := [("deviceId", JNumber 1)]; unique := true |};
    {| model := "Device"; keys := [("touristId", JNumber 1)]; unique := false |};
    {| model := "Device"; keys := [("status", JNumber 1)]; unique := false |};
    {| model := "Device"; keys := [("lastUpdate", JNumber (-1))]; unique := false |};
    {| model := "Alert"; keys := [("touristId", JNumber 1)]; unique := false |};
    {| model := "Alert"; keys := [("type", JNumber 1)]; unique := false |};
    {| model := "Alert"; keys := [("severity", JNumber 1)]; unique := false |};
    {| model := "Alert"; keys := [("createdAt", JNumber (-1))]; unique := false |};
    {| model := "Alert"; keys := [("status", JNumber 1)]; unique := false |} ].

(** [await Model.collection.createIndex(...)], one after the other. *)
Definition create_each (m : Mongo) (l : list Index) : Script unit :=
  foldr (λ i rest, perform (CreateIndex i) (create_index m i) ;; rest)
        (mret tt) l.

(** [createIndexes] *)
Definition createIndexes (m : Mongo) : Script unit :=
  try_catch
    (perform (Require "./models/Tourist") (require_model m "./models/Tourist") ;;
     perform (Require "./models/Device") (require_model m "./models/Device") ;;
     perform (Require "./models/Alert") (require_model m "./models/Alert") ;;
     create_each m indexes ;;
     console_log "✅ Database indexes created successfully" None)
    (λ error, console_error "❌ Error creating indexes:" error).

(** [connectDB] *)
Definition connectDB (env : Env) (menv : MongoEnv) (m : Mongo) : Script unit :=
  try_catch
    (let mongoURI := mongoURI env menv in
     console_log "Connecting to MongoDB:" (Some mongoURI) ;;
     perform (MongooseConnect mongoURI) (mongoose_connect m mongoURI) ;;
     console_log "✅ MongoDB connected successfully" None ;;
     createIndexes m)
    (λ error,
       console_error "❌ MongoDB connection error:" error ;;
       console_log "⚠️  Starting server without database connection..." None ;;
       console_log "💡 To fix this, install MongoDB or use MongoDB Atlas" None).

(** The indexes a script tried to create, in order. *)
Definition attempted (s : Script unit) : list Index :=
  omap (λ e, match e with CreateIndex i => Some i | _ => None end) s.1.

End Startup.

(** ** Databases used in the examples *)

Module Examples3.
Import Js Startup.

Definition mongo_ok : Mongo :=
  {| mongoose_connect := λ _, inr tt;
     require_model := λ _, inr tt;
     create_index := λ _, inr tt |}.

(** Two devices share a [deviceId]: the unique index cannot be built. *)
Definition mongo_duplicate_devices : Mongo :=
  {| mongoose_connect := λ _, inr tt;
     require_model := λ _, inr tt;
     create_index := λ i,
       if String.eqb (model i) "Device" && unique i
       then inl (Error "E11000 duplicate key error")
       else inr tt |}.

Definition mongo_down : Mongo :=
  {| mongoose_connect := λ _, inl (Error "connect ECONNREFUSED");
     require_model := λ _, inr tt;
     create_index := λ _, inr tt |}.

Definition menv0 : MongoEnv :=
  {| MONGODB_URI := Some "mongodb://db.internal/tourists";
     MONGODB_TEST_URI := None |}.

End Examples3.

(** ** Letter case *)

Module LetterCase.

(** Two characters that are equal, or the two cases of one of the
    letters A to Z. *)
Definition same_letter (a b : ascii) : bool :=
  Ascii.eqb a b ||
  (let lo := Nat.min (nat_of_ascii a) (nat_of_ascii b) in
   let hi := Nat.max (nat_of_ascii a) (nat_of_ascii b) in
   ((65 <=? lo) && (lo <=? 90) && (hi =? lo + 32))%nat).

Fixpoint same_up_to_case (s t : string) : bool :=
  match s, t with
  | EmptyString, EmptyString => true
  | String a s', String b t' => same_letter a b && same_up_to_case s' t'
  | _, _ => false
  end.

End LetterCase.

(** * Properties *)

Import Js Jwt SimpleLogin Server.

(** ** Rooms *)

Section RoomLemmas.
Implicit Types (rs : Rooms) (sid room x : string).

Lemma elem_of_members_join x sid room room' rs :
  x ∈ members (join sid room rs) room' ↔
  x ∈ members rs room' ∨ (x = sid ∧ room = room').
Proof.
  unfold join, members. destruct (decide (room = room')) as [->|Hne].
  - rewrite lookup_insert_eq. simpl. set_solver.
  - rewrite lookup_insert_ne by done. naive_solver.
Qed.

Lemma elem_of_members_leave_all x sid room rs :
  x ∈ members (leave_all sid rs) room ↔ x ∈ members rs room ∧ x ≠ sid.
Proof.
  unfold leave_all, members. rewrite lookup_omap.
  destruct (rs !! room) as [s|]; simpl; [|set_solver].
  case_decide as Hs; simpl; set_solver.
Qed.

Lemma not_elem_of_members_empty x room : x ∉ members (∅ : Rooms) room.
Proof. unfold members. rewrite lookup_empty. set_solver. Qed.

Lemma user_room_not_admin_room s : "user_" +:+ s ≠ "admin_room".
Proof. discriminate. Qed.

Lemma on_connection_inr sid socket rs rs' :
  on_connection sid socket rs = inr rs' ↔
  ∃ name, to_string (userId socket) = inr name ∧
          rs' = if is_admin_role (userRole socket)
                then join sid "admin_room" (join sid ("user_" +:+ name) rs)
                else join sid ("user_" +:+ name) rs.
Proof.
  unfold on_connection.
  destruct (to_string (userId socket)) as [e|name]; simpl.
  - split; [discriminate|]. by intros (name & Hn & _).
  - split.
    + intros [= <-]. by exists name.
    + intros (name' & [= <-] & ->). reflexivity.
Qed.

Lemma on_connection_inl sid socket rs e :
  on_connection sid socket rs = inl e ↔ to_string (userId socket) = inl e.
Proof.
  unfold on_connection.
  destruct (to_string (userId socket)) as [e'|name]; simpl;
    split; congruence.
Qed.

Lemma elem_of_members_on_connection x sid socket rs rs' :
  on_connection sid socket rs = inr rs' →
  x ∈ members rs' "admin_room" ↔
  x ∈ members rs "admin_room" ∨
  (x = sid ∧ is_admin_role (userRole socket) = true).
Proof.
  intros (name & _ & ->)%on_connection_inr.
  pose proof (user_room_not_admin_room name).
  destruct (is_admin_role (userRole socket));
    rewrite ?elem_of_members_join; naive_solver.
Qed.

Lemma elem_of_members_on_connection_any x sid socket rs rs' room :
  on_connection sid socket rs = inr rs' →
  x ∈ members rs' room → x ∈ members rs room ∨ x = sid.
Proof.
  intros (name & _ & ->)%on_connection_inr.
  destruct (is_admin_role (userRole socket));
    rewrite ?elem_of_members_join; naive_solver.
Qed.

Lemma on_connection_user_room sid socket rs rs' name :
  on_connection sid socket rs = inr rs' →
  to_string (userId socket) = inr name →
  sid ∈ members rs' ("user_" +:+ name).
Proof.
  intros (name' & Hn & ->)%on_connection_inr Hname.
  rewrite Hn in Hname. injection Hname as ->.
  destruct (is_admin_role (userRole socket));
    rewrite ?elem_of_members_join; naive_solver.
Qed.


Lemma is_admin_role_true role :
  is_admin_role role = true ↔
  role = JString "admin" ∨ role = JString "government".
Proof.
  unfold is_admin_role, strict_eq_string. split.
  - intros H. destruct role; try discriminate.
    apply orb_true_iff in H as [H|H]; apply String.eqb_eq in H; subst; auto.
  - intros [->| ->]; reflexivity.
Qed.

End RoomLemmas.

(** ** Fan-out *)

Section Fanout.
Implicit Types (rs : Rooms) (sender room ev : string) (data : JsValue)
  (d : Delivery).

Lemma to_emit_returns sender room ev data rs :
  thrown (to_emit sender room ev data rs) = None.
Proof. reflexivity. Qed.

Lemma elem_of_to_emit d sender room ev data rs :
  d ∈ sent (to_emit sender room ev data rs) ↔
  recipient d ∈ members rs room ∧ recipient d ≠ sender ∧
  event d = ev ∧ payload d = data.
Proof.
  unfold sent, to_emit. simpl. rewrite list_elem_of_fmap. split.
  - intros (r & -> & Hr). apply elem_of_elements in Hr. simpl. set_solver.
  - intros (Hr & Hne & <- & <-). exists (recipient d). split.
    + by destruct d.
    + apply elem_of_elements. set_solver.
Qed.

Lemma to_emit_empty_room sender room ev data rs :
  members rs room = ∅ → sent (to_emit sender room ev data rs) = [].
Proof.
  intros Hempty. unfold sent, to_emit. simpl. rewrite Hempty.
  replace (∅ ∖ {[sender]} : gset string) with (∅ : gset string) by set_solver.
  by rewrite elements_empty.
Qed.

Lemma handler_bind_unfold {A B} (m : Handler A) (f : A → Handler B) rs :
  (m ≫= f) rs =
  match m rs with
  | (out, inl e) => (out, inl e)
  | (out, inr a) => let '(out', r) := f a rs in (out ++ out', r)
  end.
Proof. reflexivity. Qed.

Lemma forEach_cons c (l : list JsValue) (f : JsValue → Handler unit) rs :
  forEach (JArray (c :: l)) f rs =
  match f c rs with
  | (out, inl e) => (out, inl e)
  | (out, inr _) =>
      let '(out', r) := forEach (JArray l) f rs in (out ++ out', r)
  end.
Proof. reflexivity. Qed.

(** The callback of the fan-out, by the outcome of the conversion. *)
Lemma notify_unfold sender data (c : JsValue) rs :
  notify sender data c rs =
  match to_string c with
  | inl e => ([], inl e)
  | inr name =>
      (sent (to_emit sender ("user_" +:+ name)
                     "emergency_notification" data rs), inr tt)
  end.
Proof.
  unfold notify. rewrite handler_bind_unfold. unfold lift.
  destruct (to_string c) as [e|name]; [reflexivity|].
  unfold sent, to_emit. simpl. reflexivity.
Qed.

(** The notifications for room names, in order. *)
Lemma forEach_notify_all sender data rs (l : list JsValue)
    (names : list string) :
  Forall2 (λ c name, to_string c = inr name) l names →
  forEach (JArray l) (notify sender data) rs =
  (mjoin ((λ name, sent (to_emit sender ("user_" +:+ name)
                                 "emergency_notification" data rs))
            <$> names),
   inr tt).
Proof.
  induction 1 as [|c name l names Hc _ IH]; [reflexivity|].
  rewrite forEach_cons, notify_unfold, Hc, IH. reflexivity.
Qed.

(** The fan-out stops at the first contact that cannot be converted. *)
Lemma forEach_notify_until sender data rs (pre : list JsValue)
    (names : list string) (c : JsValue) (post : list JsValue) e :
  Forall2 (λ c name, to_string c = inr name) pre names →
  to_string c = inl e →
  forEach (JArray (pre ++ c :: post)) (notify sender data) rs =
  (mjoin ((λ name, sent (to_emit sender ("user_" +:+ name)
                                 "emergency_notification" data rs))
            <$> names),
   inl e).
Proof.
  intros Hpre Hc. induction Hpre as [|c0 name pre names Hc0 _ IH].
  - cbn [app]. by rewrite forEach_cons, notify_unfold, Hc.
  - cbn [app]. rewrite forEach_cons, notify_unfold, Hc0, IH.
    reflexivity.
Qed.

Lemma elem_of_forEach_notify d sender data rs (l : list JsValue) :
  d ∈ (forEach (JArray l) (notify sender data) rs).1 →
  recipient d ≠ sender ∧ payload d = data ∧
  event d = "emergency_notification" ∧
  ∃ c name, c ∈ l ∧ to_string c = inr name ∧
            recipient d ∈ members rs ("user_" +:+ name).
Proof.
  induction l as [|c l IH]; [by intros ?%elem_of_nil|].
  rewrite forEach_cons, notify_unfold.
  destruct (to_string c) as [e|name] eqn:Hc; [by intros ?%elem_of_nil|].
  destruct (forEach (JArray l) (notify sender data) rs) as [out' r].
  cbn [fst]. rewrite elem_of_app. intros [Hd|Hd].
  - apply elem_of_to_emit in Hd as (Hin & Hne & He & Hp).
    repeat split; try done. exists c, name. by rewrite elem_of_cons; auto.
  - destruct (IH Hd) as (Hne & Hp & He & c' & name' & Hc' & Hn' & Hin).
    repeat split; try done. exists c', name'. rewrite elem_of_cons. auto.
Qed.


(** The alert listener, laid out by the cases of [data.contacts]. *)
Lemma on_emergency_alert_unfold sender data rs :
  on_emergency_alert sender data rs =
  let admins := sent (to_emit sender "admin_room" "emergency_alert" data rs) in
  match get data "contacts" with
  | inl e => (admins, inl e)
  | inr contacts =>
      if truthy contacts then
        match contacts with
        | JArray l =>
            (admins ++ (forEach (JArray l) (notify sender data) rs).1,
             (forEach (JArray l) (notify sender data) rs).2)
        | _ => (admins, inl TypeError)
        end
      else (admins, inr tt)
  end.
Proof.
  unfold on_emergency_alert. rewrite !handler_bind_unfold.
  unfold lift, sent. cbn [to_emit fst snd].
  destruct (get data "contacts") as [e|contacts].
  { by rewrite app_nil_r. }
  destruct (truthy contacts) eqn:Ht.
  - destruct contacts; try (cbn; by rewrite ?app_nil_r).
    by destruct (forEach (JArray xs) (notify sender data) rs) as [out [e|[]]].
  - cbn. by rewrite app_nil_r.
Qed.

Lemma route_emergency_alert sender data :
  route sender "emergency_alert" data = on_emergency_alert sender data.
Proof. reflexivity. Qed.

(** Whatever is emitted goes to a member of some room, never to the
    sender. *)
Lemma route_recipient d sender ev data rs :
  d ∈ sent (route sender ev data rs) →
  recipient d ≠ sender ∧ ∃ room, recipient d ∈ members rs room.
Proof.
  unfold route.
  destruct (String.eqb ev "device_update");
    [|destruct (String.eqb ev "emergency_alert");
      [|destruct (String.eqb ev "location_update")]].
  - unfold on_device_update. rewrite elem_of_to_emit. naive_solver.
  - rewrite on_emergency_alert_unfold. simpl.
    assert (Hadm : ∀ d, d ∈ sent (to_emit sender "admin_room" "emergency_alert" data rs) →
                   recipient d ≠ sender ∧ ∃ room, recipient d ∈ members rs room).
    { intros d'. rewrite elem_of_to_emit. naive_solver. }
    destruct (get data "contacts") as [e|contacts]; [apply Hadm|].
    destruct (truthy contacts); [|apply Hadm].
    destruct contacts; try apply Hadm.
    unfold sent at 1. simpl. rewrite elem_of_app. intros [H|H]; [by apply Hadm|].
    apply elem_of_forEach_notify in H. naive_solver.
  - unfold on_location_update. rewrite elem_of_to_emit. naive_solver.
  - unfold sent. simpl. by intros ?%elem_of_nil.
Qed.

End Fanout.

(** ** Event routing *)

(** C2. For every sender [A] and every room state, routing a
    [device_update] or a [location_update] of [A] returns normally,
    hands the event with its payload to every member of [admin_room]
    other than [A], and hands nothing to [A] or to a socket outside
    [admin_room]. *)
Theorem updates_reach_admin_room_only
    (rs : Rooms) (A ev : string) (data : JsValue) :
  ev = "device_update" ∨ ev = "location_update" →
  thrown (route A ev data rs) = None ∧
  (∀ m, m ∈ members rs "admin_room" → m ≠ A →
        {| recipient := m; event := ev; payload := data |}
          ∈ sent (route A ev data rs)) ∧
  (∀ d, d ∈ sent (route A ev data rs) →
        recipient d ≠ A ∧ recipient d ∈ members rs "admin_room" ∧
        event d = ev ∧ payload d = data).
Proof.
  intros [-> | ->].
  - change (route A "device_update" data)
      with (to_emit A "admin_room" "device_update" data).
    split; [reflexivity|]. split.
    + intros m Hm Hne. apply elem_of_to_emit. by simpl.
    + intros d Hd. apply elem_of_to_emit in Hd. naive_solver.
  - change (route A "location_update" data)
      with (to_emit A "admin_room" "location_update" data).
    split; [reflexivity|]. split.
    + intros m Hm Hne. apply elem_of_to_emit. by simpl.
    + intros d Hd. apply elem_of_to_emit in Hd. naive_solver.
Qed.

Lemma updates_reach_admin_room_only_witness :
  thrown (route Examples.sidB "location_update" (JNumber 7)
                (rooms Examples.st2)) = None ∧
  (∀ m, m ∈ members (rooms Examples.st2) "admin_room" → m ≠ Examples.sidB →
        {| recipient := m; event := "location_update"; payload := JNumber 7 |}
          ∈ sent (route Examples.sidB "location_update" (JNumber 7)
                        (rooms Examples.st2))) ∧
  (∀ d, d ∈ sent (route Examples.sidB "location_update" (JNumber 7)
                        (rooms Examples.st2)) →
        recipient d ≠ Examples.sidB ∧
        recipient d ∈ members (rooms Examples.st2) "admin_room" ∧
        event d = "location_update" ∧ payload d = JNumber 7).
Proof.
  apply (updates_reach_admin_room_only (rooms Examples.st2) Examples.sidB
           "location_update" (JNumber 7)).
  right. reflexivity.
Defined.

(** The scenario of the specification: A (admin) and B (user, subject
    42) are connected and B emits a [location_update]; A alone gets it. *)
Example location_update_scenario :
  sent (route Examples.sidB "location_update" (JNumber 7) (rooms Examples.st2))
  = [{| recipient := Examples.sidA; event := "location_update";
        payload := JNumber 7 |}].
Proof. vm_compute. reflexivity. Qed.

(** C1, as stated, fails: B, whose personal room is [user_42], sends an
    alert with contacts [42] and [1]; B is a member of [user_42] and
    gets no [emergency_notification], because [socket.to] leaves the
    sender out of every room it addresses. *)
Lemma alert_skips_sender_in_contact_room :
  get Examples.alert_42_1 "contacts" = inr (JArray [JNumber 42; JNumber 1]) ∧
  to_string (JNumber 42) = inr "42" ∧
  ¬ (∀ m, m ∈ members (rooms Examples.st2) "user_42" →
          ∃ d, d ∈ sent (route Examples.sidB "emergency_alert"
                               Examples.alert_42_1 (rooms Examples.st2)) ∧
               recipient d = m ∧ event d = "emergency_notification").
Proof.
  split; [reflexivity|]. split; [reflexivity|]. intros Hall.
  destruct (Hall Examples.sidB) as (d & Hd & Hrcpt & _).
  - apply elem_of_elements. vm_compute. constructor.
  - apply route_recipient in Hd as [Hne _]. contradiction.
Qed.

(** C1 (amended). An [emergency_alert] whose payload has
    [contacts = [X, Y]], for contact identifiers [X] and [Y] that the
    template literal converts to the strings [x] and [y] (numbers being
    safe integers), returns normally; it is handed, still typed
    [emergency_alert], to every member of [admin_room] other than the
    sender, and, typed [emergency_notification] with the same payload,
    to every member of [user_x] and of [user_y] other than the sender;
    nothing else is sent, and a contact room without members
    contributes nothing. *)
Theorem emergency_alert_fanout
    (rs : Rooms) (sender : string) (props : list (string * JsValue))
    (X Y : JsValue) (x y : string) :
  obj_get props "contacts" = JArray [X; Y] →
  to_string X = inr x → to_string Y = inr y →
  plain_decimal X = true → plain_decimal Y = true →
  let data := JObject props in
  let o := route sender "emergency_alert" data rs in
  thrown o = None ∧
  sent o =
    sent (to_emit sender "admin_room" "emergency_alert" data rs) ++
    sent (to_emit sender ("user_" +:+ x) "emergency_notification" data rs) ++
    sent (to_emit sender ("user_" +:+ y) "emergency_notification" data rs) ∧
  (∀ d, d ∈ sent o ↔
        recipient d ≠ sender ∧ payload d = data ∧
        ((event d = "emergency_alert" ∧
          recipient d ∈ members rs "admin_room") ∨
         (event d = "emergency_notification" ∧
          (recipient d ∈ members rs ("user_" +:+ x) ∨
           recipient d ∈ members rs ("user_" +:+ y))))) ∧
  (∀ name, name = x ∨ name = y → members rs ("user_" +:+ name) = ∅ →
           sent (to_emit sender ("user_" +:+ name)
                         "emergency_notification" data rs) = []).
Proof.
  intros Hc HX HY _ _ data o. subst o data.
  rewrite route_emergency_alert, on_emergency_alert_unfold.
  cbn zeta. cbn [get]. rewrite Hc. cbn [truthy].
  rewrite (forEach_notify_all sender (JObject props) rs [X; Y] [x; y])
    by (repeat constructor; done).
  cbn [fmap list_fmap mjoin list_join fst snd]. rewrite app_nil_r.
  split; [reflexivity|]. split; [reflexivity|]. split.
  - intros d. unfold sent at 1. cbn [fst].
    rewrite !elem_of_app, !elem_of_to_emit. naive_solver.
  - intros name _ Hempty. by apply to_emit_empty_room.
Qed.

Lemma emergency_alert_fanout_witness :
  obj_get [("contacts", JArray [JNumber 42; JNumber 1])] "contacts"
    = JArray [JNumber 42; JNumber 1] ∧
  to_string (JNumber 42) = inr "42" ∧ to_string (JNumber 1) = inr "1" ∧
  plain_decimal (JNumber 42) = true ∧ plain_decimal (JNumber 1) = true ∧
  thrown (route Examples.sidB "emergency_alert" Examples.alert_42_1
                (rooms Examples.st2)) = None.
Proof.
  repeat (split; [reflexivity|]).
  exact (proj1 (emergency_alert_fanout (rooms Examples.st2) Examples.sidB
                  [("contacts", JArray [JNumber 42; JNumber 1])]
                  (JNumber 42) (JNumber 1) "42" "1"
                  eq_refl eq_refl eq_refl eq_refl eq_refl)).
Defined.

(** B's alert naming subjects 42 and 1: A gets the alert as a member of
    [admin_room] and the notification as the member of [user_1]. *)
Example alert_scenario :
  sent (route Examples.sidB "emergency_alert" Examples.alert_42_1
              (rooms Examples.st2))
  = [{| recipient := Examples.sidA; event := "emergency_alert";
        payload := Examples.alert_42_1 |};
     {| recipient := Examples.sidA; event := "emergency_notification";
        payload := Examples.alert_42_1 |}].
Proof. vm_compute. reflexivity. Qed.

(** C9. When [payload.contacts] is absent or falsy, an
    [emergency_alert] returns normally and is emitted to [admin_room]
    only: every member of [admin_room] other than the sender gets it,
    and nobody else gets anything; and an [emergency_notification] is
    emitted only when [payload.contacts] is present and truthy. *)
Theorem alert_without_contacts_goes_to_admins_only
    (rs : Rooms) (sender : string) (data : JsValue) :
  (∀ contacts,
     get data "contacts" = inr contacts → truthy contacts = false →
     thrown (route sender "emergency_alert" data rs) = None ∧
     sent (route sender "emergency_alert" data rs) =
       sent (to_emit sender "admin_room" "emergency_alert" data rs) ∧
     (∀ m, m ∈ members rs "admin_room" → m ≠ sender →
           {| recipient := m; event := "emergency_alert"; payload := data |}
             ∈ sent (route sender "emergency_alert" data rs)) ∧
     (∀ d, d ∈ sent (route sender "emergency_alert" data rs) →
           event d = "emergency_alert" ∧
           recipient d ∈ members rs "admin_room" ∧
           recipient d ≠ sender ∧ payload d = data)) ∧
  (∀ d, d ∈ sent (route sender "emergency_alert" data rs) →
        event d = "emergency_notification" →
        ∃ contacts, get data "contacts" = inr contacts ∧
                    truthy contacts = true).
Proof.
  rewrite route_emergency_alert, on_emergency_alert_unfold. cbn zeta. split.
  - intros contacts -> ->. split; [reflexivity|]. split; [reflexivity|].
    split.
    + intros m Hm Hne. apply elem_of_to_emit. by simpl.
    + intros d Hd. apply elem_of_to_emit in Hd. naive_solver.
  - assert (Hadm : ∀ d,
      d ∈ sent (to_emit sender "admin_room" "emergency_alert" data rs) →
      event d = "emergency_notification" → False).
    { intros d Hd He. apply elem_of_to_emit in Hd as (_ & _ & Hev & _).
      rewrite He in Hev. discriminate. }
    intros d Hd He.
    destruct (get data "contacts") as [e|contacts];
      [by destruct (Hadm d)|].
    exists contacts. split; [reflexivity|].
    destruct (truthy contacts); [reflexivity|by destruct (Hadm d)].
Qed.

Lemma alert_without_contacts_goes_to_admins_only_witness :
  get (JObject [("kind", JString "sos")]) "contacts" = inr JUndefined ∧
  truthy JUndefined = false ∧
  thrown (route Examples.sidB "emergency_alert"
                (JObject [("kind", JString "sos")])
                (rooms Examples.st2)) = None ∧
  {| recipient := Examples.sidA; event := "emergency_alert";
     payload := JObject [("kind", JString "sos")] |}
    ∈ sent (route Examples.sidB "emergency_alert"
                  (JObject [("kind", JString "sos")])
                  (rooms Examples.st2)).
Proof.
  split; [reflexivity|]. split; [reflexivity|].
  destruct (proj1 (alert_without_contacts_goes_to_admins_only
                     (rooms Examples.st2) Examples.sidB
                     (JObject [("kind", JString "sos")]))
              JUndefined eq_refl eq_refl) as (Hret & _ & Hall & _).
  split; [exact Hret|]. apply Hall; [|discriminate].
  apply elem_of_elements. vm_compute. constructor.
Defined.

(** C7 at a failing input.  An [emergency_alert] sent without a payload
    makes the listener throw a [TypeError] at [data.contacts], after the
    emission to [admin_room]; so does a payload whose [contacts] is a
    non-empty string, at [forEach].  The thrown error stops the server. *)
Theorem emergency_alert_listener_throws :
  (∀ (rs : Rooms) sender,
     thrown (route sender "emergency_alert" JUndefined rs) = Some TypeError) ∧
  (∀ (rs : Rooms) sender,
     thrown (route sender "emergency_alert"
                   (JObject [("contacts", JString "42")]) rs)
     = Some TypeError) ∧
  ∃ st',
    exec Examples.env0 Examples.st2
         (Emit Examples.sidB "emergency_alert" JUndefined)
    = Some (st', [{| recipient := Examples.sidA; event := "emergency_alert";
                     payload := JUndefined |}]) ∧
    running st' = false.
Proof.
  split; [|split].
  - intros rs sender.
    by rewrite route_emergency_alert, on_emergency_alert_unfold.
  - intros rs sender.
    by rewrite route_emergency_alert, on_emergency_alert_unfold.
  - eexists. split; [vm_compute; reflexivity|reflexivity].
Qed.

(** ** The transition system *)

Section Transitions.
Variable env : Env.
Implicit Types (st : State) (a : Action) (sid : string).

Lemma exec_running st a st' out :
  exec env st a = Some (st', out) → running st = true.
Proof. unfold exec. by destruct (running st). Qed.

(** The shape of an accepted connection: the socket is registered, and
    either the listener made its joins or it threw and the server
    stopped. *)
Lemma exec_connect_accepted st sid token now st' out socket :
  exec env st (Connect sid token now) = Some (st', out) →
  io_use env now token = inr socket →
  sockets st !! sid = None ∧ String.length sid = 20%nat ∧ out = [] ∧
  sockets st' = <[sid := socket]> (sockets st) ∧
  ((∃ joined,
      on_connection sid socket (join sid sid (rooms st)) = inr joined ∧
      rooms st' = joined ∧ running st' = true) ∨
   (∃ e,
      on_connection sid socket (join sid sid (rooms st)) = inl e ∧
      rooms st' = join sid sid (rooms st) ∧ running st' = false)).
Proof.
  unfold exec. intros Hex Hauth.
  destruct (running st); [|discriminate]. simpl in Hex.
  destruct (sockets st !! sid) eqn:Hs; [discriminate|].
  destruct (Nat.eqb (String.length sid) 20) eqn:Hlen; [|discriminate].
  simpl in Hex. rewrite Hauth in Hex. apply Nat.eqb_eq in Hlen.
  destruct (on_connection sid socket (join sid sid (rooms st)))
    as [e|joined] eqn:Hjoin; simplify_eq; simpl.
  - repeat split; try done. right. by exists e.
  - repeat split; try done. left. by exists joined.
Qed.

Lemma exec_connect_refused st sid token now st' out e :
  exec env st (Connect sid token now) = Some (st', out) →
  io_use env now token = inl e →
  st' = st ∧ out = [].
Proof.
  unfold exec. intros Hex Hauth.
  destruct (running st); [|discriminate]. simpl in Hex.
  destruct (sockets st !! sid); [discriminate|].
  destruct (Nat.eqb _ _); [|discriminate]. simpl in Hex.
  rewrite Hauth in Hex. by simplify_eq.
Qed.

Lemma exec_disconnect st sid st' out :
  exec env st (Disconnect sid) = Some (st', out) →
  is_Some (sockets st !! sid) ∧ out = [] ∧
  rooms st' = leave_all sid (rooms st) ∧
  sockets st' = delete sid (sockets st).
Proof.
  unfold exec. intros Hex.
  destruct (running st); [|discriminate]. simpl in Hex.
  destruct (sockets st !! sid) eqn:Hs; [|discriminate].
  by simplify_eq.
Qed.

Lemma exec_emit st sid ev data st' out :
  exec env st (Emit sid ev data) = Some (st', out) →
  is_Some (sockets st !! sid) ∧
  out = sent (route sid ev data (rooms st)) ∧
  rooms st' = rooms st ∧ sockets st' = sockets st.
Proof.
  unfold exec. intros Hex.
  destruct (running st); [|discriminate]. simpl in Hex.
  destruct (sockets st !! sid) eqn:Hs; [|discriminate].
  destruct (thrown _); simplify_eq; done.
Qed.

Lemma consistent_initial : consistent initial.
Proof.
  split; simpl.
  - intros room x Hx. by apply not_elem_of_members_empty in Hx.
  - intros x Hx. by apply not_elem_of_members_empty in Hx.
Qed.

Lemma sid_not_admin_room sid :
  String.length sid = 20%nat → sid ≠ "admin_room".
Proof. intros Hlen ->. discriminate. Qed.

Lemma exec_consistent st a st' out :
  consistent st → exec env st a = Some (st', out) → consistent st'.
Proof.
  intros [Hconn Hadm] Hex. destruct a as [sid token now|sid ev data|sid].
  - destruct (io_use env now token) as [e|socket] eqn:Hauth.
    { by destruct (exec_connect_refused _ _ _ _ _ _ _ Hex Hauth) as [-> _]. }
    destruct (exec_connect_accepted _ _ _ _ _ _ _ Hex Hauth)
      as (Hfresh & Hlen & _ & Hs & Hrooms).
    assert (Hregistered : ∀ room x,
      x ∈ members (join sid sid (rooms st)) room →
      is_Some (<[sid := socket]> (sockets st) !! x)).
    { intros room x Hx. apply lookup_insert_is_Some.
      apply elem_of_members_join in Hx as [Hx|[-> _]]; [|by left].
      destruct (decide (sid = x)) as [->|Hne]; [by left|]. right.
      split; [done|]. by eapply Hconn. }
    assert (Hold : ∀ x,
      x ∈ members (join sid sid (rooms st)) "admin_room" →
      ∃ socket', <[sid := socket]> (sockets st) !! x = Some socket' ∧
                 is_admin_role (userRole socket') = true).
    { intros x Hx. apply elem_of_members_join in Hx as [Hx|[_ Heq]];
        [|by apply sid_not_admin_room in Heq].
      destruct (Hadm x Hx) as (socket' & Hs' & Hrole).
      exists socket'. split; [|done].
      rewrite lookup_insert_ne; [done|]. intros ->. congruence. }
    unfold consistent. rewrite Hs.
    destruct Hrooms as [(joined & Hjoin & -> & _)|(e & _ & -> & _)].
    + split.
      * intros room x Hx.
        apply (elem_of_members_on_connection_any _ _ _ _ _ _ Hjoin) in Hx
          as [Hx| ->]; [by eapply Hregistered|].
        apply lookup_insert_is_Some. by left.
      * intros x Hx.
        apply (elem_of_members_on_connection _ _ _ _ _ Hjoin) in Hx
          as [Hx|[-> Hrole]]; [by apply Hold|].
        exists socket. by rewrite lookup_insert_eq.
    + by split.
  - apply exec_emit in Hex as (_ & _ & Hr & Hs).
    unfold consistent. rewrite Hr, Hs. by split.
  - apply exec_disconnect in Hex as (_ & _ & Hr & Hs).
    unfold consistent. rewrite Hr, Hs. split.
    + intros room x Hx. apply elem_of_members_leave_all in Hx as [Hx Hne].
      rewrite lookup_delete_ne by done. by eapply Hconn.
    + intros x Hx. apply elem_of_members_leave_all in Hx as [Hx Hne].
      rewrite lookup_delete_ne by done. by apply Hadm.
Qed.

Lemma reachable_consistent st : reachable env st → consistent st.
Proof.
  induction 1 as [|st a st' out _ IH Hex]; [apply consistent_initial|].
  by eapply exec_consistent.
Qed.

(** Along a run that does not reuse [sid], a socket record stays what
    it is until the socket closes, and a closed socket stays closed. *)
Lemma exec_keeps_socket st a st' out sid (o : option Socket) :
  is_connect_of sid a = false →
  exec env st a = Some (st', out) →
  sockets st !! sid = o → sockets st' !! sid = o ∨ sockets st' !! sid = None.
Proof.
  intros Hnc Hex Ho. destruct a as [sid' token now|sid' ev data|sid'].
  - simpl in Hnc. apply String.eqb_neq in Hnc.
    destruct (io_use env now token) as [e|socket] eqn:Hauth.
    { destruct (exec_connect_refused _ _ _ _ _ _ _ Hex Hauth) as [-> _].
      by left. }
    destruct (exec_connect_accepted _ _ _ _ _ _ _ Hex Hauth)
      as (_ & _ & _ & Hs & _).
    left. rewrite Hs. by rewrite lookup_insert_ne.
  - apply exec_emit in Hex as (_ & _ & _ & Hs). left. by rewrite Hs.
  - apply exec_disconnect in Hex as (_ & _ & _ & Hs). rewrite Hs.
    destruct (decide (sid' = sid)) as [->|Hne].
    + right. apply lookup_delete_eq.
    + left. by rewrite lookup_delete_ne.
Qed.

Lemma run_consistent tr : ∀ st st' out,
  consistent st → run env st tr = Some (st', out) → consistent st'.
Proof.
  induction tr as [|a tr IH]; intros st st' out Hc Hrun; simpl in Hrun.
  - by simplify_eq.
  - destruct (exec env st a) as [[st1 out1]|] eqn:Hex; [|discriminate].
    destruct (run env st1 tr) as [[st2 out2]|] eqn:Hrest; [|discriminate].
    simplify_eq. eapply IH; [|done]. by eapply exec_consistent.
Qed.

Lemma run_keeps_socket tr : ∀ st st' out sid (o : option Socket),
  no_reconnect sid tr = true →
  run env st tr = Some (st', out) →
  sockets st !! sid = o → sockets st' !! sid = o ∨ sockets st' !! sid = None.
Proof.
  induction tr as [|a tr IH]; intros st st' out sid o Hnr Hrun Ho;
    simpl in Hrun.
  - simplify_eq. by left.
  - destruct (exec env st a) as [[st1 out1]|] eqn:Hex; [|discriminate].
    destruct (run env st1 tr) as [[st2 out2]|] eqn:Hrest; [|discriminate].
    simplify_eq. simpl in Hnr. apply andb_true_iff in Hnr as [Ha Hnr].
    apply negb_true_iff in Ha.
    destruct (exec_keeps_socket _ _ _ _ _ _ Ha Hex eq_refl) as [H1|H1].
    + eapply IH; done.
    + right. destruct (IH _ _ _ _ _ Hnr Hrest H1); done.
Qed.

(** No packet of a run goes to a socket that is closed throughout. *)
Lemma run_recipients_connected tr : ∀ st st' out sid,
  consistent st → no_reconnect sid tr = true →
  sockets st !! sid = None →
  run env st tr = Some (st', out) →
  ∀ d, d ∈ out → recipient d ≠ sid.
Proof.
  induction tr as [|a tr IH]; intros st st' out sid Hc Hnr Hs Hrun d Hd;
    simpl in Hrun.
  - simplify_eq. by apply elem_of_nil in Hd.
  - destruct (exec env st a) as [[st1 out1]|] eqn:Hex; [|discriminate].
    destruct (run env st1 tr) as [[st2 out2]|] eqn:Hrest; [|discriminate].
    simplify_eq. simpl in Hnr. apply andb_true_iff in Hnr as [Ha Hnr].
    apply negb_true_iff in Ha. apply elem_of_app in Hd as [Hd|Hd].
    + destruct a as [sid' token now|sid' ev data|sid'].
      * destruct (io_use env now token) as [e|socket] eqn:Hauth.
        -- destruct (exec_connect_refused _ _ _ _ _ _ _ Hex Hauth)
             as [_ ->].
           by apply elem_of_nil in Hd.
        -- destruct (exec_connect_accepted _ _ _ _ _ _ _ Hex Hauth)
             as (_ & _ & -> & _).
           by apply elem_of_nil in Hd.
      * apply exec_emit in Hex as (_ & -> & _ & _).
        apply route_recipient in Hd as (_ & room & Hin).
        destruct Hc as [Hconn _]. apply Hconn in Hin as [s Hin].
        intros Heq. rewrite Heq in Hin. congruence.
      * apply exec_disconnect in Hex as (_ & -> & _).
        by apply elem_of_nil in Hd.
    + eapply (IH st1); [by eapply exec_consistent|done| |done|done].
      destruct (exec_keeps_socket _ _ _ _ _ _ Ha Hex Hs); done.
Qed.

End Transitions.

(** ** Sessions and rooms *)

Lemma st1_step :
  exec Examples.env0 initial (Connect Examples.sidA Examples.admin_token 100)
  = Some (Examples.st1, []).
Proof. vm_compute. reflexivity. Qed.

Lemma st2_step :
  exec Examples.env0 Examples.st1
       (Connect Examples.sidB Examples.user_token 100)
  = Some (Examples.st2, []).
Proof. vm_compute. reflexivity. Qed.

Lemma st3_step :
  exec Examples.env0 Examples.st2 (Disconnect Examples.sidB)
  = Some (Examples.st3, []).
Proof. vm_compute. reflexivity. Qed.

Lemma st2_reachable : reachable Examples.env0 Examples.st2.
Proof.
  eapply reachable_step; [|apply st2_step].
  eapply reachable_step; [|apply st1_step].
  apply reachable_initial.
Qed.

(** C3. When a connection with id [sid] is accepted with subject
    [userId socket] and role [userRole socket], and the subject has the
    string form [name] (a number being a safe integer), then the
    connection listener completes, and right after it the socket is a
    member of [user_<name>], and it is a member of [admin_room] if and
    only if its role is ["admin"] or ["government"]. *)
Theorem connection_joins_rooms
    (env : Env) (st st' : State) (sid : string) (token : Token) (now : Z)
    (out : list Delivery) (socket : Socket) (name : string) :
  reachable env st →
  exec env st (Connect sid token now) = Some (st', out) →
  io_use env now token = inr socket →
  to_string (userId socket) = inr name →
  plain_decimal (userId socket) = true →
  running st' = true ∧
  sockets st' !! sid = Some socket ∧
  sid ∈ members (rooms st') ("user_" +:+ name) ∧
  (sid ∈ members (rooms st') "admin_room" ↔
   userRole socket = JString "admin" ∨ userRole socket = JString "government").
Proof.
  intros Hreach Hex Hauth Hname _.
  destruct (exec_connect_accepted _ _ _ _ _ _ _ _ Hex Hauth)
    as (Hfresh & Hlen & _ & Hs & [(joined & Hjoin & Hr & Hrun)|
                                  (e & Hthrow & _)]).
  2: { apply on_connection_inl in Hthrow. congruence. }
  split; [done|]. rewrite Hs, Hr.
  split; [apply lookup_insert_eq|].
  split; [by eapply on_connection_user_room|].
  rewrite (elem_of_members_on_connection _ _ _ _ _ Hjoin),
    elem_of_members_join, is_admin_role_true.
  split; [|naive_solver].
  intros [[Hold|[_ Heq]]|[_ Hrole]]; [| |done].
  - apply reachable_consistent in Hreach as [Hconn _].
    apply Hconn in Hold as [s' Hs']. congruence.
  - by apply sid_not_admin_room in Heq.
Qed.

Lemma connection_joins_rooms_witness :
  running Examples.st2 = true ∧
  sockets Examples.st2 !! Examples.sidB
    = Some {| userId := JNumber 42; userRole := JString "user" |} ∧
  Examples.sidB ∈ members (rooms Examples.st2) "user_42" ∧
  (Examples.sidB ∈ members (rooms Examples.st2) "admin_room" ↔
   JString "user" = JString "admin" ∨ JString "user" = JString "government").
Proof.
  apply (connection_joins_rooms Examples.env0 Examples.st1 Examples.st2
           Examples.sidB Examples.user_token 100 []
           {| userId := JNumber 42; userRole := JString "user" |} "42").
  - eapply reachable_step; [apply reachable_initial|apply st1_step].
  - apply st2_step.
  - reflexivity.
  - reflexivity.
  - reflexivity.
Defined.

(** C5. In every reachable state, each member of [admin_room] is a
    connected socket whose role is ["admin"] or ["government"]; a
    connected socket with any other role is not a member. *)
Theorem admin_room_holds_privileged_only (env : Env) (st : State) :
  reachable env st →
  (∀ sid, sid ∈ members (rooms st) "admin_room" →
          ∃ socket, sockets st !! sid = Some socket ∧
                    (userRole socket = JString "admin" ∨
                     userRole socket = JString "government")) ∧
  (∀ sid socket,
     sockets st !! sid = Some socket →
     userRole socket ≠ JString "admin" →
     userRole socket ≠ JString "government" →
     sid ∉ members (rooms st) "admin_room").
Proof.
  intros [_ Hadm]%reachable_consistent. split.
  - intros sid Hin. destruct (Hadm sid Hin) as (socket & Hs & Hrole).
    exists socket. split; [done|]. by apply is_admin_role_true.
  - intros sid socket Hs Hna Hng Hin.
    destruct (Hadm sid Hin) as (socket' & Hs' & Hrole).
    apply is_admin_role_true in Hrole. naive_solver.
Qed.

Lemma admin_room_holds_privileged_only_witness :
  Examples.sidB ∉ members (rooms Examples.st2) "admin_room".
Proof.
  apply (proj2 (admin_room_holds_privileged_only Examples.env0 Examples.st2
                  st2_reachable)
           Examples.sidB {| userId := JNumber 42; userRole := JString "user" |});
    [reflexivity|discriminate|discriminate].
Defined.

(** C6. Once the disconnect of a socket has completed, the socket is a
    member of no room, and in every later run of the server (the id is
    not issued again) it stays out of every room and no packet is sent
    to it. *)
Theorem closed_socket_is_in_no_room
    (env : Env) (st st' : State) (sid : string) (out : list Delivery) :
  reachable env st →
  exec env st (Disconnect sid) = Some (st', out) →
  (∀ room, sid ∉ members (rooms st') room) ∧
  (∀ tr st'' out',
     no_reconnect sid tr = true →
     run env st' tr = Some (st'', out') →
     (∀ room, sid ∉ members (rooms st'') room) ∧
     (∀ d, d ∈ out' → recipient d ≠ sid)).
Proof.
  intros Hreach Hex.
  assert (Hc' : consistent st').
  { eapply exec_consistent; [|exact Hex]. by eapply reachable_consistent. }
  apply exec_disconnect in Hex as (_ & _ & Hr & Hdel). split.
  - intros room Hin. rewrite Hr in Hin.
    apply elem_of_members_leave_all in Hin as [_ Hne]. done.
  - intros tr st'' out' Hnr Hrun.
    assert (Hclosed : sockets st' !! sid = None)
      by (rewrite Hdel; apply lookup_delete_eq).
    split.
    + intros room Hin.
      pose proof (run_consistent _ _ _ _ _ Hc' Hrun) as [Hconn _].
      apply Hconn in Hin as [s Hs].
      destruct (run_keeps_socket _ _ _ _ _ _ _ Hnr Hrun Hclosed); congruence.
    + by eapply run_recipients_connected.
Qed.

Lemma closed_socket_is_in_no_room_witness :
  (∀ room, Examples.sidB ∉ members (rooms Examples.st3) room) ∧
  (∀ tr st'' out',
     no_reconnect Examples.sidB tr = true →
     run Examples.env0 Examples.st3 tr = Some (st'', out') →
     (∀ room, Examples.sidB ∉ members (rooms st'') room) ∧
     (∀ d, d ∈ out' → recipient d ≠ Examples.sidB)).
Proof.
  apply (closed_socket_is_in_no_room Examples.env0 Examples.st2 Examples.st3
           Examples.sidB []).
  - apply st2_reachable.
  - apply st3_step.
Defined.

(** After B has closed, an alert of A that names subject 42 reaches
    nobody. *)
Example alert_after_disconnect :
  run Examples.env0 Examples.st3
      [Emit Examples.sidA "emergency_alert"
            (JObject [("contacts", JArray [JNumber 42])])]
  = Some (Examples.st3, []).
Proof. vm_compute. reflexivity. Qed.

(** ** The handshake *)

Section Handshake.
Variable env : Env.
Implicit Types (token : Token) (now : Z) (j : Jws).

(** Only a compact JWS signed with the server's key verifies, and what
    comes back is its claims, which are not [null]. *)
Lemma verify_inr token now claims :
  verify token (JWT_SECRET env) now = inr claims →
  ∃ j, token = Compact j ∧ claims = jws_payload j ∧
       jws_key j = JWT_SECRET env ∧ JWT_SECRET env ≠ EmptyString ∧
       ∀ k, ∃ v, get claims k = inr v.
Proof.
  destruct token as [j|v]; simpl.
  - destruct (String.eqb (JWT_SECRET env) EmptyString) eqn:Hs; [discriminate|].
    destruct (String.eqb (jws_key j) (JWT_SECRET env)) eqn:Hk;
      [|discriminate].
    simpl. intros Hv. exists j. apply String.eqb_eq in Hk.
    apply String.eqb_neq in Hs.
    assert (Hget : ∀ k, ∃ v, get (jws_payload j) k = inr v).
    { intros k. destruct (jws_payload j); simpl in *;
        try discriminate; eauto. }
    assert (claims = jws_payload j); [|by subst].
    unfold bind in Hv.
    repeat match type of Hv with
           | match ?x with _ => _ end = _ => destruct x; try discriminate
           end.
    congruence.
  - destruct (truthy v); simpl; [|discriminate]. by destruct v.
Qed.

Lemma io_use_error token now e :
  io_use env now token = inl e → e = Error "Authentication error".
Proof.
  unfold io_use. destruct (token_truthy token); simpl; [|congruence].
  destruct (bind _ _); congruence.
Qed.

Lemma io_use_verify_failed token now e :
  verify token (JWT_SECRET env) now = inl e →
  io_use env now token = inl (Error "Authentication error").
Proof.
  unfold io_use. intros ->. simpl. by destruct (token_truthy token).
Qed.

Lemma io_use_verified token now claims uid role :
  verify token (JWT_SECRET env) now = inr claims →
  get claims "userId" = inr uid → get claims "role" = inr role →
  io_use env now token = inr {| userId := uid; userRole := role |}.
Proof.
  intros Hv Hu Hr. unfold io_use. rewrite Hv.
  destruct (verify_inr _ _ _ Hv) as (j & -> & _).
  cbn [token_truthy negb bind]. rewrite Hu. cbn [bind]. rewrite Hr.
  reflexivity.
Qed.

Lemma verify_bad_signature j now :
  jws_key j ≠ JWT_SECRET env →
  ∃ e, verify (Compact j) (JWT_SECRET env) now = inl e.
Proof.
  intros Hk. simpl. destruct (String.eqb (JWT_SECRET env) EmptyString); [eauto|].
  apply String.eqb_neq in Hk. rewrite Hk. simpl. eauto.
Qed.

Lemma verify_expired j now n :
  get (jws_payload j) "exp" = inr (JNumber n) → n ≤ now →
  ∃ e, verify (Compact j) (JWT_SECRET env) now = inl e.
Proof.
  intros Hexp Hle. simpl.
  destruct (String.eqb (JWT_SECRET env) EmptyString); [eauto|].
  destruct (negb (String.eqb (jws_key j) (JWT_SECRET env))); [eauto|].
  destruct (get (jws_payload j) "nbf") as [e|nbf]; simpl; [eauto|].
  destruct (match nbf with
            | JUndefined => inr ()
            | JNumber n0 => if now <? n0 then inl NotBeforeError else inr ()
            | _ => inl (JsonWebTokenError "invalid nbf value")
            end) as [e|[]]; simpl; [eauto|].
  rewrite Hexp. simpl.
  apply Z.leb_le in Hle. rewrite Hle. simpl. eauto.
Qed.

(** A token signed with the server's secret, not before its [nbf] and
    before its [exp], verifies. *)
Lemma verify_valid j now (nbf exp : JsValue) :
  JWT_SECRET env ≠ EmptyString →
  jws_key j = JWT_SECRET env →
  get (jws_payload j) "nbf" = inr nbf →
  (nbf = JUndefined ∨ ∃ n, nbf = JNumber n ∧ n ≤ now) →
  get (jws_payload j) "exp" = inr exp →
  (exp = JUndefined ∨ ∃ n, exp = JNumber n ∧ now < n) →
  verify (Compact j) (JWT_SECRET env) now = inr (jws_payload j).
Proof.
  intros Hs%String.eqb_neq Hk Hnbf Hn Hexp He. unfold verify.
  rewrite Hs, Hk, String.eqb_refl. cbn [negb]. rewrite Hnbf. cbn [bind].
  assert (match nbf with
          | JUndefined => inr ()
          | JNumber n => if now <? n then inl NotBeforeError else inr ()
          | _ => inl (JsonWebTokenError "invalid nbf value")
          end = (inr () : JsError + ())) as ->.
  { destruct Hn as [->|(n & -> & Hle)]; [done|].
    by rewrite (proj2 (Z.ltb_ge now n)). }
  cbn [bind]. rewrite Hexp. cbn [bind].
  assert (match exp with
          | JUndefined => inr ()
          | JNumber n => if n <=? now then inl TokenExpiredError else inr ()
          | _ => inl (JsonWebTokenError "invalid exp value")
          end = (inr () : JsError + ())) as ->.
  { destruct He as [->|(n & -> & Hlt)]; [done|].
    by rewrite (proj2 (Z.leb_gt n now)). }
  reflexivity.
Qed.

(** Conversely, a token that verifies was inside its validity window. *)
Lemma verify_inr_window j now claims :
  verify (Compact j) (JWT_SECRET env) now = inr claims →
  ∃ nbf exp,
    get (jws_payload j) "nbf" = inr nbf ∧
    (nbf = JUndefined ∨ ∃ n, nbf = JNumber n ∧ n ≤ now) ∧
    get (jws_payload j) "exp" = inr exp ∧
    (exp = JUndefined ∨ ∃ n, exp = JNumber n ∧ now < n).
Proof.
  unfold verify.
  destruct (String.eqb (JWT_SECRET env) EmptyString); [discriminate|].
  destruct (negb (String.eqb (jws_key j) (JWT_SECRET env))); [discriminate|].
  cbn zeta. unfold bind.
  destruct (get (jws_payload j) "nbf") as [e|nbf]; [discriminate|].
  destruct (get (jws_payload j) "exp") as [e|exp].
  { destruct nbf as [| | |n| | |]; try discriminate.
    by destruct (now <? n). }
  intros Hv. exists nbf, exp. split; [done|].
  assert (Hnbf : nbf = JUndefined ∨ ∃ n, nbf = JNumber n ∧ n ≤ now).
  { destruct nbf as [| | |n| | |]; try discriminate; [by left|].
    right. exists n. split; [done|].
    destruct (now <? n) eqn:Hlt; [discriminate|]. by apply Z.ltb_ge. }
  split; [done|]. split; [done|].
  assert (Hpast : match exp with
                  | JUndefined => inr ()
                  | JNumber n => if n <=? now then inl TokenExpiredError
                                 else inr ()
                  | _ => inl (JsonWebTokenError "invalid exp value")
                  end = (inr () : JsError + ())).
  { destruct Hnbf as [->|(n & -> & Hle)].
    - by destruct exp as [| | |m| | |]; try discriminate;
        try (destruct (m <=? now); [discriminate|]).
    - rewrite (proj2 (Z.ltb_ge now n) Hle) in Hv.
      by destruct exp as [| | |m| | |]; try discriminate;
        try (destruct (m <=? now); [discriminate|]). }
  destruct exp as [| | |m| | |]; try discriminate; [by left|].
  right. exists m. split; [done|].
  destruct (m <=? now) eqn:Hle; [discriminate|]. by apply Z.leb_gt.
Qed.

End Handshake.

(** C4, as stated, fails: an absent token and a token with a bad
    signature are refused with one and the same error, so no reading of
    the middleware's error tells [Missing] from [Invalid]. *)
Lemma missing_and_invalid_fail_alike :
  io_use Examples.env0 100 (Other JUndefined)
    = inl (Error "Authentication error") ∧
  io_use Examples.env0 100 (Examples.forged [("userId", JNumber 1)])
    = inl (Error "Authentication error") ∧
  ¬ ∃ classify : JsError → AuthError,
      (∀ e, io_use Examples.env0 100 (Other JUndefined) = inl e →
            classify e = Missing) ∧
      (∀ e, io_use Examples.env0 100
                   (Examples.forged [("userId", JNumber 1)]) = inl e →
            classify e = Invalid).
Proof.
  split; [reflexivity|]. split; [reflexivity|].
  intros (classify & Hmissing & Hinvalid).
  specialize (Hmissing (Error "Authentication error") eq_refl).
  specialize (Hinvalid (Error "Authentication error") eq_refl).
  congruence.
Qed.

(** C4 (amended). For every valid credential, that is a token signed
    with [JWT_SECRET] that is presented not before its [nbf] and before
    its [exp], the middleware succeeds and stores exactly the [userId]
    and [role] claims encoded in it, and it succeeds for no other
    token; it refuses an absent token, a token with a bad signature and
    an expired token, each time with the one error
    ['Authentication error'], which is the only error it gives. *)
Theorem handshake_outcomes (env : Env) (now : Z) (token : Token) :
  (∀ j nbf exp,
     token = Compact j →
     JWT_SECRET env ≠ EmptyString → jws_key j = JWT_SECRET env →
     get (jws_payload j) "nbf" = inr nbf →
     (nbf = JUndefined ∨ ∃ n, nbf = JNumber n ∧ n ≤ now) →
     get (jws_payload j) "exp" = inr exp →
     (exp = JUndefined ∨ ∃ n, exp = JNumber n ∧ now < n) →
     ∃ uid role,
       get (jws_payload j) "userId" = inr uid ∧
       get (jws_payload j) "role" = inr role ∧
       io_use env now token = inr {| userId := uid; userRole := role |}) ∧
  (∀ socket,
     io_use env now token = inr socket →
     ∃ j nbf exp,
       token = Compact j ∧
       JWT_SECRET env ≠ EmptyString ∧ jws_key j = JWT_SECRET env ∧
       get (jws_payload j) "nbf" = inr nbf ∧
       (nbf = JUndefined ∨ ∃ n, nbf = JNumber n ∧ n ≤ now) ∧
       get (jws_payload j) "exp" = inr exp ∧
       (exp = JUndefined ∨ ∃ n, exp = JNumber n ∧ now < n)) ∧
  (∀ claims,
     verify token (JWT_SECRET env) now = inr claims →
     ∃ j uid role,
       token = Compact j ∧ claims = jws_payload j ∧
       get (jws_payload j) "userId" = inr uid ∧
       get (jws_payload j) "role" = inr role ∧
       io_use env now token = inr {| userId := uid; userRole := role |}) ∧
  (token_truthy token = false →
     io_use env now token = inl (Error "Authentication error")) ∧
  (∀ j, token = Compact j → jws_key j ≠ JWT_SECRET env →
     io_use env now token = inl (Error "Authentication error")) ∧
  (∀ j n, token = Compact j →
     get (jws_payload j) "exp" = inr (JNumber n) → n ≤ now →
     io_use env now token = inl (Error "Authentication error")) ∧
  (∀ e, io_use env now token = inl e →
     e = Error "Authentication error" ∧
     ∃ e', verify token (JWT_SECRET env) now = inl e').
Proof.
  assert (Hverified : ∀ claims,
     verify token (JWT_SECRET env) now = inr claims →
     ∃ j uid role,
       token = Compact j ∧ claims = jws_payload j ∧
       get (jws_payload j) "userId" = inr uid ∧
       get (jws_payload j) "role" = inr role ∧
       io_use env now token = inr {| userId := uid; userRole := role |}).
  { intros claims Hv.
    destruct (verify_inr _ _ _ _ Hv) as (j & -> & -> & _ & _ & Hget).
    destruct (Hget "userId") as [uid Hu]. destruct (Hget "role") as [role Hr].
    exists j, uid, role. repeat split; try done.
    by eapply io_use_verified. }
  split; [|split; [|split; [done|split; [|split; [|split]]]]].
  - intros j nbf exp -> Hs Hk Hnbf Hn Hexp He.
    pose proof (verify_valid env j now nbf exp Hs Hk Hnbf Hn Hexp He) as Hv.
    destruct (Hverified _ Hv) as (j' & uid & role & Hj & _ & Hu & Hr & Hio).
    injection Hj as <-. by exists uid, role.
  - intros socket Hio.
    destruct (verify token (JWT_SECRET env) now) as [e|claims] eqn:Hv.
    { rewrite (io_use_verify_failed _ _ _ _ Hv) in Hio. discriminate. }
    destruct (verify_inr _ _ _ _ Hv) as (j & -> & _ & Hk & Hs & _).
    destruct (verify_inr_window _ _ _ _ Hv)
      as (nbf & exp & Hnbf & Hn & Hexp & He).
    by exists j, nbf, exp.
  - unfold io_use. by intros ->.
  - intros j -> Hk. destruct (verify_bad_signature env j now Hk) as [e He].
    by eapply io_use_verify_failed.
  - intros j n -> Hexp Hle.
    destruct (verify_expired env j now n Hexp Hle) as [e He].
    by eapply io_use_verify_failed.
  - intros e He. split; [by eapply io_use_error|].
    destruct (verify token (JWT_SECRET env) now) as [e'|claims] eqn:Hv;
      [eauto|].
    destruct (Hverified _ eq_refl) as (j & uid & role & _ & _ & _ & _ & Hio).
    rewrite Hio in He. discriminate.
Qed.

Lemma handshake_outcomes_witness :
  io_use Examples.env0 100 Examples.admin_token
    = inr {| userId := JNumber 1; userRole := JString "admin" |} ∧
  io_use Examples.env0 100 (Other (JString EmptyString))
    = inl (Error "Authentication error") ∧
  io_use Examples.env0 100 (Examples.forged [("userId", JNumber 1)])
    = inl (Error "Authentication error") ∧
  io_use Examples.env0 100 (Examples.signed [("exp", JNumber 99)])
    = inl (Error "Authentication error").
Proof.
  split; [|split; [|split]].
  - destruct (proj1 (handshake_outcomes Examples.env0 100 Examples.admin_token)
                _ JUndefined JUndefined eq_refl)
      as (uid & role & Hu & Hr & Hio);
      [discriminate|reflexivity|reflexivity|by left|reflexivity|by left|].
    simpl in Hu, Hr. injection Hu as <-. injection Hr as <-. exact Hio.
  - apply (proj1 (proj2 (proj2 (proj2 (handshake_outcomes Examples.env0 100
                                  (Other (JString EmptyString))))))).
    reflexivity.
  - apply (proj1 (proj2 (proj2 (proj2 (proj2
             (handshake_outcomes Examples.env0 100
                (Examples.forged [("userId", JNumber 1)]))))))
             _ eq_refl).
    discriminate.
  - apply (proj1 (proj2 (proj2 (proj2 (proj2 (proj2
             (handshake_outcomes Examples.env0 100
                (Examples.signed [("exp", JNumber 99)])))))))
             _ 99 eq_refl eq_refl).
    lia.
Defined.

(** ** Tokens issued by the login route *)

Section GeneratedTokens.
Variable env : Env.

Lemma generateToken_inr issued uid j :
  generateToken env issued uid = inr j →
  JWT_SECRET env ≠ EmptyString ∧ jws_key j = JWT_SECRET env ∧
  jws_payload j =
    JObject ((match uid with
              | JUndefined => []
              | _ => [("userId", json uid)]
              end) ++
             [("iat", JNumber issued);
              ("exp", JNumber (issued + default seven_days (JWT_EXPIRE env)))]).
Proof.
  unfold generateToken, sign.
  destruct (String.eqb (JWT_SECRET env) EmptyString) eqn:Hs; [discriminate|].
  apply String.eqb_neq in Hs.
  destruct uid; cbn; intros Hj; simplify_eq; done.
Qed.

Lemma generated_claims issued uid j :
  generateToken env issued uid = inr j →
  get (jws_payload j) "userId" = inr (json uid) ∧
  ∀ k, k ≠ "userId" → k ≠ "iat" → k ≠ "exp" →
       get (jws_payload j) k = inr JUndefined.
Proof.
  intros (_ & _ & ->)%generateToken_inr. split.
  - by destruct uid.
  - intros k Hu Hi He. cbn [get].
    assert (Hiat : String.eqb "iat" k = false)
      by (apply String.eqb_neq; congruence).
    assert (Hexp : String.eqb "exp" k = false)
      by (apply String.eqb_neq; congruence).
    assert (Huid : String.eqb "userId" k = false)
      by (apply String.eqb_neq; congruence).
    destruct uid; cbn [app obj_get]; rewrite ?Huid, Hiat, Hexp; reflexivity.
Qed.

Lemma io_use_generated issued uid j now socket :
  generateToken env issued uid = inr j →
  io_use env now (Compact j) = inr socket →
  socket = {| userId := json uid; userRole := JUndefined |}.
Proof.
  intros Hgen Hio. destruct (generated_claims _ _ _ Hgen) as [Hu Hother].
  assert (Hr : get (jws_payload j) "role" = inr JUndefined)
    by (apply Hother; discriminate).
  destruct (verify (Compact j) (JWT_SECRET env) now) as [e|claims] eqn:Hv.
  - rewrite (io_use_verify_failed _ _ _ _ Hv) in Hio. discriminate.
  - destruct (verify_inr _ _ _ _ Hv) as (j' & Hj & -> & _).
    injection Hj as <-.
    rewrite (io_use_verified _ _ _ _ _ _ Hv Hu Hr) in Hio. congruence.
Qed.

End GeneratedTokens.

(** C8. A token made by [generateToken] carries the [userId] claim
    (with the [iat] and [exp] stamps of the library) and no other
    claim, so no [role]; a socket that authenticates with it has
    [userRole] undefined, fails the admin-room guard, and is not in
    [admin_room] after its connection nor at any later time. *)
Theorem generated_token_never_joins_admin_room
    (env : Env) (issued : Z) (uid : JsValue) (j : Jws) :
  generateToken env issued uid = inr j →
  (get (jws_payload j) "userId" = inr (json uid) ∧
   get (jws_payload j) "role" = inr JUndefined ∧
   ∀ k, k ≠ "userId" → k ≠ "iat" → k ≠ "exp" →
        get (jws_payload j) k = inr JUndefined) ∧
  ∀ now socket,
    io_use env now (Compact j) = inr socket →
    userRole socket = JUndefined ∧
    is_admin_role (userRole socket) = false ∧
    ∀ st sid st' out,
      reachable env st →
      exec env st (Connect sid (Compact j) now) = Some (st', out) →
      (sid ∉ members (rooms st') "admin_room") ∧
      (∀ tr st'' out',
         no_reconnect sid tr = true →
         run env st' tr = Some (st'', out') →
         sid ∉ members (rooms st'') "admin_room").
Proof.
  intros Hgen. destruct (generated_claims _ _ _ _ Hgen) as [Hu Hother].
  split.
  { split; [done|]. split; [|done]. apply Hother; discriminate. }
  intros now socket Hio.
  pose proof (io_use_generated _ _ _ _ _ _ Hgen Hio) as Hsock.
  assert (Hrole : is_admin_role (userRole socket) = false) by by subst socket.
  split; [by subst socket|]. split; [done|].
  intros st sid st' out Hreach Hex.
  assert (Hc' : consistent st').
  { eapply reachable_consistent. by eapply reachable_step. }
  assert (Hs' : sockets st' !! sid = Some socket).
  { destruct (exec_connect_accepted _ _ _ _ _ _ _ _ Hex Hio)
      as (_ & _ & _ & -> & _). apply lookup_insert_eq. }
  split.
  - intros Hin. destruct Hc' as [_ Hadm].
    destruct (Hadm sid Hin) as (socket' & Hs & Hadmin). congruence.
  - intros tr st'' out' Hnr Hrun Hin.
    pose proof (run_consistent _ _ _ _ _ Hc' Hrun) as [_ Hadm].
    destruct (Hadm sid Hin) as (socket' & Hs & Hadmin).
    destruct (run_keeps_socket _ _ _ _ _ _ _ Hnr Hrun Hs'); congruence.
Qed.

Lemma generated_token_never_joins_admin_room_witness :
  generateToken Examples.env0 1000 (JNumber 7)
    = inr {| jws_payload :=
               JObject [("userId", JNumber 7); ("iat", JNumber 1000);
                        ("exp", JNumber 605800)];
             jws_key := "s3cret" |} ∧
  get (JObject [("userId", JNumber 7); ("iat", JNumber 1000);
                ("exp", JNumber 605800)]) "role" = inr JUndefined ∧
  userRole {| userId := JNumber 7; userRole := JUndefined |} = JUndefined.
Proof.
  split; [reflexivity|]. split.
  - exact (proj1 (proj2 (proj1 (generated_token_never_joins_admin_room
                                  Examples.env0 1000 (JNumber 7) _ eq_refl)))).
  - exact (proj1 (proj2 (generated_token_never_joins_admin_room
                           Examples.env0 1000 (JNumber 7) _ eq_refl)
                    2000 {| userId := JNumber 7; userRole := JUndefined |}
                    eq_refl)).
Defined.

(** The row of an administrator logs in, connects with the token of the
    response, and is in its personal room only. *)
Example admin_login_then_connect :
  ∃ tok st out,
    token (login Examples.env0 Examples.deps0 1000 Examples.req0) = Some tok ∧
    obj_get Examples.row7 "role" = JString "admin" ∧
    exec Examples.env0 initial (Connect Examples.sidA (Compact tok) 2000)
      = Some (st, out) ∧
    elements (members (rooms st) "user_7") = [Examples.sidA] ∧
    elements (members (rooms st) "admin_room") = [].
Proof.
  eexists _, _, _. split; [reflexivity|]. split; [reflexivity|].
  split; [reflexivity|]. split; vm_compute; reflexivity.
Qed.

(** ** The login response *)

Section Omit.
Implicit Types (props : list (string * JsValue)) (k : string).

Lemma obj_get_omit_same k props : obj_get (omit k props) k = JUndefined.
Proof.
  unfold omit. induction props as [|[k' v] props IH]; [reflexivity|].
  destruct (decide (k' = k)) as [->|Hne].
  - by rewrite filter_cons_False by (simpl; tauto).
  - rewrite filter_cons_True by done. simpl.
    apply String.eqb_neq in Hne. by rewrite Hne.
Qed.

Lemma obj_get_omit_other k k' props :
  k' ≠ k → obj_get (omit k props) k' = obj_get props k'.
Proof.
  intros Hkk. unfold omit. induction props as [|[k0 v] props IH];
    [reflexivity|].
  destruct (decide (k0 = k)) as [->|Hne].
  - rewrite filter_cons_False by (simpl; tauto). simpl.
    assert (String.eqb k k' = false) as -> by (apply String.eqb_neq; congruence).
    done.
  - rewrite filter_cons_True by done. simpl. by rewrite IH.
Qed.

Lemma elem_of_omit k props kv :
  kv ∈ omit k props ↔ kv.1 ≠ k ∧ kv ∈ props.
Proof. unfold omit. by rewrite list_elem_of_filter. Qed.

End Omit.

(** C10. A response of [POST /login] with status 200 and
    [success = true] was produced for the first row the query returned;
    its [user] object has no [password] property, and it has every
    other column of that row with the value of the row; beside [user]
    the body holds the fixed message and the token made from the row's
    [id]. *)
Theorem login_success_omits_password
    (env : Env) (deps : Deps) (now : Z) (req : Request) :
  status (login env deps now req) = 200 →
  success (login env deps now req) = true →
  ∃ email row rest u,
    toLowerCase (req_email req) = inr email ∧
    db_select_by_email deps email = inr (row :: rest) ∧
    user (login env deps now req) = Some u ∧
    obj_get u "password" = JUndefined ∧
    (∀ kv, kv ∈ u ↔ kv.1 ≠ "password" ∧ kv ∈ row) ∧
    (∀ k, k ≠ "password" → obj_get u k = obj_get row k) ∧
    message (login env deps now req) = "Login successful" ∧
    errors (login env deps now req) = None ∧
    error (login env deps now req) = None ∧
    ∃ tok, token (login env deps now req) = Some tok ∧
           generateToken env now (obj_get row "id") = inr tok.
Proof.
  unfold login, login_try, bind, failure.
  destruct (negb (Nat.eqb (length (validation_errors req)) 0));
    [discriminate|].
  destruct (db_connect deps); [discriminate|].
  destruct (toLowerCase (req_email req)) as [e|email] eqn:Hemail;
    [discriminate|].
  destruct (db_select_by_email deps email) as [e|[|row rest]] eqn:Hrows;
    [discriminate|discriminate|].
  destruct (negb (strict_eq_string (obj_get row "status") "active"));
    [discriminate|].
  destruct (bcrypt_compare deps _ _) as [e|[]]; [discriminate| |discriminate].
  simpl.
  destruct (db_touch deps _); [discriminate|].
  destruct (generateToken env now _) as [e|tok] eqn:Htok; [discriminate|].
  simpl. intros _ _. exists email, row, rest, (omit "password" row).
  split; [done|]. split; [done|]. split; [done|].
  split; [apply obj_get_omit_same|].
  split; [intros kv; apply elem_of_omit|].
  split; [intros k Hk; by apply obj_get_omit_other|].
  split; [done|]. split; [done|]. split; [done|]. by exists tok.
Qed.

Lemma login_success_omits_password_witness :
  ∃ email row rest u,
    toLowerCase (req_email Examples.req0) = inr email ∧
    db_select_by_email Examples.deps0 email = inr (row :: rest) ∧
    user (login Examples.env0 Examples.deps0 1000 Examples.req0) = Some u ∧
    obj_get u "password" = JUndefined.
Proof.
  destruct (login_success_omits_password Examples.env0 Examples.deps0 1000
              Examples.req0 eq_refl eq_refl)
    as (email & row & rest & u & He & Hr & Hu & Hp & _).
  exists email, row, rest, u. auto.
Defined.

Example login_response_user :
  user (login Examples.env0 Examples.deps0 1000 Examples.req0)
  = Some [("id", JNumber 7); ("name", JString "Asha");
          ("email", JString "asha@example.org");
          ("role", JString "admin"); ("status", JString "active")].
Proof. vm_compute. reflexivity. Qed.

(** * Further properties of the code *)

(** ** Standing memberships *)

Section Memberships.
Import Sessions.
Variable env : Env.
Implicit Types (st : State) (sid room x : string) (socket : Socket).

Lemma elem_of_joined_rooms room sid socket :
  room ∈ joined_rooms sid socket ↔
  room = sid ∨
  ∃ name, to_string (userId socket) = inr name ∧
          (room = "user_" +:+ name ∨
           (room = "admin_room" ∧ is_admin_role (userRole socket) = true)).
Proof.
  unfold joined_rooms. rewrite elem_of_cons.
  destruct (to_string (userId socket)) as [e|name].
  - rewrite elem_of_nil. naive_solver.
  - rewrite elem_of_cons. destruct (is_admin_role (userRole socket)).
    + rewrite elem_of_cons, elem_of_nil. naive_solver.
    + rewrite elem_of_nil. naive_solver.
Qed.

Lemma elem_of_members_on_connection_iff x sid socket (rs rs' : Rooms) room :
  on_connection sid socket rs = inr rs' →
  x ∈ members rs' room ↔
  x ∈ members rs room ∨
  (x = sid ∧
   ∃ name, to_string (userId socket) = inr name ∧
           (room = "user_" +:+ name ∨
            (room = "admin_room" ∧ is_admin_role (userRole socket) = true))).
Proof.
  intros (name & Hn & ->)%on_connection_inr.
  destruct (is_admin_role (userRole socket)).
  - rewrite !elem_of_members_join. split.
    + intros [[Hin|[-> <-]]|[-> <-]]; [by left| |]; right;
        (split; [done|]); exists name; auto.
    + intros [Hin|(-> & name' & Hn' & Hroom)]; [by left; left|].
      rewrite Hn in Hn'. injection Hn' as <-.
      destruct Hroom as [->|[-> _]]; auto.
  - rewrite elem_of_members_join. split.
    + intros [Hin|[-> <-]]; [by left|]. right. split; [done|].
      exists name. auto.
    + intros [Hin|(-> & name' & Hn' & Hroom)]; [by left|].
      rewrite Hn in Hn'. injection Hn' as <-.
      destruct Hroom as [->|[_ ?]]; [auto|discriminate].
Qed.

Lemma membership_exact_initial : membership_exact initial.
Proof.
  intros room sid. simpl. split.
  - by intros ?%not_elem_of_members_empty.
  - intros (socket & Hs & _). by rewrite lookup_empty in Hs.
Qed.

Lemma exec_membership_exact st a st' out :
  membership_exact st → exec env st a = Some (st', out) →
  membership_exact st'.
Proof.
  intros Hex Hstep. destruct a as [sid token now|sid ev data|sid].
  - destruct (io_use env now token) as [e|socket] eqn:Hauth.
    + by destruct (exec_connect_refused _ _ _ _ _ _ _ _ Hstep Hauth) as [-> _].
    + destruct (exec_connect_accepted _ _ _ _ _ _ _ _ Hstep Hauth)
        as (Hfresh & _ & _ & Hsock & Hrooms).
      intros room x. rewrite Hsock.
      destruct Hrooms as [(joined & Hjoin & -> & _)|(e & Hthrow & -> & _)].
      * rewrite (elem_of_members_on_connection_iff _ _ _ _ _ _ Hjoin).
        rewrite elem_of_members_join, (Hex room x). split.
        -- intros [[(socket' & Hs & Hin)|[-> ->]]|[-> Hroom]].
           ++ exists socket'. split; [|done].
              rewrite lookup_insert_ne; [done|]. intros ->. congruence.
           ++ exists socket. rewrite lookup_insert_eq.
              split; [done|]. apply elem_of_joined_rooms. by left.
           ++ exists socket. rewrite lookup_insert_eq.
              split; [done|]. apply elem_of_joined_rooms. by right.
        -- intros (socket' & Hs & Hin).
           destruct (decide (sid = x)) as [->|Hne].
           ++ rewrite lookup_insert_eq in Hs. simplify_eq.
              apply elem_of_joined_rooms in Hin as [->|Hin]; [|by right].
              left. by right.
           ++ rewrite lookup_insert_ne in Hs by done. left. left. eauto.
      * apply on_connection_inl in Hthrow.
        rewrite elem_of_members_join, (Hex room x). split.
        -- intros [(socket' & Hs & Hin)|[-> ->]].
           ++ exists socket'. split; [|done].
              rewrite lookup_insert_ne; [done|]. intros ->. congruence.
           ++ exists socket. rewrite lookup_insert_eq.
              split; [done|]. apply elem_of_joined_rooms. by left.
        -- intros (socket' & Hs & Hin).
           destruct (decide (sid = x)) as [->|Hne].
           ++ rewrite lookup_insert_eq in Hs. simplify_eq.
              apply elem_of_joined_rooms in Hin
                as [->|(name & Hn & _)]; [by right|congruence].
           ++ rewrite lookup_insert_ne in Hs by done. left. eauto.
  - apply exec_emit in Hstep as (_ & _ & Hr & Hs).
    unfold membership_exact. by rewrite Hr, Hs.
  - apply exec_disconnect in Hstep as (_ & _ & Hr & Hs).
    intros room x. rewrite Hr, Hs.
    rewrite elem_of_members_leave_all, (Hex room x).
    split.
    + intros [(socket & Hsock & Hin) Hne]. exists socket.
      by rewrite lookup_delete_ne.
    + intros (socket & Hsock & Hin).
      destruct (decide (sid = x)) as [->|Hne].
      * by rewrite lookup_delete_eq in Hsock.
      * rewrite lookup_delete_ne in Hsock by done. eauto.
Qed.

Lemma exec_emit_returns st sid ev data :
  running st = true → is_Some (sockets st !! sid) →
  thrown (route sid ev data (rooms st)) = None →
  exec env st (Emit sid ev data)
  = Some (st, sent (route sid ev data (rooms st))).
Proof.
  intros Hrun [socket Hs] Hthrown. unfold exec.
  rewrite Hrun, Hs. simpl. by rewrite Hthrown.
Qed.

Lemma user_room_inj a b : "user_" +:+ a = "user_" +:+ b → a = b.
Proof. intros H. by injection H. Qed.

Lemma reachable_membership_exact st :
  reachable env st → membership_exact st.
Proof.
  induction 1 as [|st a st' out _ IH Hstep];
    [apply membership_exact_initial|by eapply exec_membership_exact].
Qed.

(** While the server runs, the [userId] of every connected socket went
    through the log line of the connection listener, so it converts. *)
Lemma reachable_running_converts st :
  reachable env st → running st = true →
  ∀ sid socket, sockets st !! sid = Some socket →
                ∃ name, to_string (userId socket) = inr name.
Proof.
  induction 1 as [|st a st' out _ IH Hstep]; intros Hrun x socket Hx.
  { simpl in Hx. by rewrite lookup_empty in Hx. }
  specialize (IH (exec_running _ _ _ _ _ Hstep)).
  destruct a as [sid token now|sid ev data|sid].
  - destruct (io_use env now token) as [e|socket'] eqn:Hauth.
    + destruct (exec_connect_refused _ _ _ _ _ _ _ _ Hstep Hauth) as [-> _].
      eauto.
    + destruct (exec_connect_accepted _ _ _ _ _ _ _ _ Hstep Hauth)
        as (_ & _ & _ & Hsock & Hrooms).
      destruct Hrooms as [(joined & Hjoin & _)|(e & _ & _ & Hstop)];
        [|congruence].
      rewrite Hsock in Hx. destruct (decide (sid = x)) as [->|Hne].
      * rewrite lookup_insert_eq in Hx. simplify_eq.
        apply on_connection_inr in Hjoin as (name & Hn & _). eauto.
      * rewrite lookup_insert_ne in Hx by done. eauto.
  - apply exec_emit in Hstep as (_ & _ & _ & Hs). rewrite Hs in Hx. eauto.
  - apply exec_disconnect in Hstep as (_ & _ & _ & Hs). rewrite Hs in Hx.
    apply lookup_delete_Some in Hx as [_ Hx]. eauto.
Qed.

End Memberships.

(** X1. In every reachable state the members of a room are connected
    sockets, and a connected socket (its [userId] free of numbers
    beyond the safe integers) is a member of a room exactly when the
    room is one of those it was put in on connecting: the room of its
    id and, when its [userId] has a string form, [user_<that form>] and
    [admin_room] if its role passed the guard.  Nothing else ever adds
    or removes a membership. *)
Theorem memberships_are_those_of_connection (env : Env) (st : State) :
  reachable env st →
  (∀ room sid, sid ∈ members (rooms st) room → is_Some (sockets st !! sid)) ∧
  ∀ sid socket,
    sockets st !! sid = Some socket →
    plain_decimal (userId socket) = true →
    ∀ room,
      sid ∈ members (rooms st) room ↔
      room = sid ∨
      ∃ name, to_string (userId socket) = inr name ∧
              (room = "user_" +:+ name ∨
               (room = "admin_room" ∧
                (userRole socket = JString "admin" ∨
                 userRole socket = JString "government"))).
Proof.
  intros Hex%reachable_membership_exact. split.
  - intros room sid (socket & Hs & _)%Hex. by exists socket.
  - intros sid socket Hs _ room. rewrite (Hex room sid). split.
    + intros (socket' & Hs' & Hin). simplify_eq.
      apply elem_of_joined_rooms in Hin as [->|(name & Hn & Hroom)];
        [by left|].
      right. exists name. by rewrite <- is_admin_role_true.
    + intros Hroom. exists socket. split; [done|].
      apply elem_of_joined_rooms.
      destruct Hroom as [->|(name & Hn & Hroom)]; [by left|].
      right. exists name. by rewrite is_admin_role_true.
Qed.

Lemma memberships_are_those_of_connection_witness :
  Examples.sidB ∈ members (rooms Examples.st2) "user_42" ↔
  "user_42" = Examples.sidB ∨
  ∃ name, to_string (JNumber 42) = inr name ∧
          ("user_42" = "user_" +:+ name ∨
           ("user_42" = "admin_room" ∧
            (JString "user" = JString "admin" ∨
             JString "user" = JString "government"))).
Proof.
  exact (proj2 (memberships_are_those_of_connection Examples.env0 Examples.st2
                  st2_reachable)
           Examples.sidB
           {| userId := JNumber 42; userRole := JString "user" |}
           eq_refl eq_refl "user_42").
Defined.

(** ** What the router sends, for every event *)

Section Router.
Implicit Types (rs : Rooms) (sender ev : string) (data : JsValue)
  (d : Delivery).

Lemma route_cases sender ev data :
  (ev = "device_update" ∧
   route sender ev data = to_emit sender "admin_room" "device_update" data) ∨
  (ev = "emergency_alert" ∧
   route sender ev data = on_emergency_alert sender data) ∨
  (ev = "location_update" ∧
   route sender ev data = to_emit sender "admin_room" "location_update" data) ∨
  (ev ≠ "device_update" ∧ ev ≠ "emergency_alert" ∧ ev ≠ "location_update" ∧
   route sender ev data = mret tt).
Proof.
  unfold route.
  destruct (String.eqb ev "device_update") eqn:H1.
  { apply String.eqb_eq in H1 as ->. by left. }
  destruct (String.eqb ev "emergency_alert") eqn:H2.
  { apply String.eqb_eq in H2 as ->. right. by left. }
  destruct (String.eqb ev "location_update") eqn:H3.
  { apply String.eqb_eq in H3 as ->. right. right. by left. }
  apply String.eqb_neq in H1, H2, H3. by repeat right.
Qed.

(** The notifications of an alert, by the names of the rooms. *)
Lemma elem_of_notifications d sender data rs (names : list string) :
  d ∈ mjoin ((λ name, sent (to_emit sender ("user_" +:+ name)
                                    "emergency_notification" data rs))
               <$> names) ↔
  recipient d ≠ sender ∧ payload d = data ∧
  event d = "emergency_notification" ∧
  ∃ name, name ∈ names ∧ recipient d ∈ members rs ("user_" +:+ name).
Proof.
  rewrite list_elem_of_join. split.
  - intros (out & Hd & Hout).
    apply list_elem_of_fmap in Hout as (name & -> & Hname).
    apply elem_of_to_emit in Hd. naive_solver.
  - intros (Hne & Hp & He & name & Hname & Hin).
    exists (sent (to_emit sender ("user_" +:+ name)
                          "emergency_notification" data rs)).
    split; [by apply elem_of_to_emit|].
    apply list_elem_of_fmap. by exists name.
Qed.

Lemma length_to_emit sender room ev data rs :
  length (sent (to_emit sender room ev data rs))
  = size (members rs room ∖ {[sender]}).
Proof. unfold sent, to_emit. simpl. by rewrite length_fmap. Qed.

Lemma length_notifications sender data rs (names : list string) :
  length (mjoin ((λ name, sent (to_emit sender ("user_" +:+ name)
                                        "emergency_notification" data rs))
                   <$> names))
  = sum_list_with
      (λ name, size (members rs ("user_" +:+ name) ∖ {[sender]})) names.
Proof.
  induction names as [|name names IH]; [reflexivity|].
  change (length
            (sent (to_emit sender ("user_" +:+ name)
                           "emergency_notification" data rs) ++
             mjoin ((λ name, sent (to_emit sender ("user_" +:+ name)
                                           "emergency_notification" data rs))
                      <$> names))
          = (size (members rs ("user_" +:+ name) ∖ {[sender]}) +
             sum_list_with
               (λ name, size (members rs ("user_" +:+ name) ∖ {[sender]}))
               names)%nat).
  by rewrite length_app, IH, length_to_emit.
Qed.

Lemma alert_with_array sender data rs (l : list JsValue)
    (names : list string) :
  get data "contacts" = inr (JArray l) →
  Forall2 (λ c name, to_string c = inr name) l names →
  route sender "emergency_alert" data rs =
  (sent (to_emit sender "admin_room" "emergency_alert" data rs) ++
   mjoin ((λ name, sent (to_emit sender ("user_" +:+ name)
                                 "emergency_notification" data rs))
            <$> names),
   inr tt).
Proof.
  intros Hc Hnames. rewrite route_emergency_alert, on_emergency_alert_unfold.
  cbn zeta. rewrite Hc. cbn [truthy].
  by rewrite (forEach_notify_all _ _ _ _ _ Hnames).
Qed.

Lemma converted_name (l : list JsValue) (names : list string) c name :
  Forall2 (λ c name, to_string c = inr name) l names →
  c ∈ l → to_string c = inr name → name ∈ names.
Proof.
  intros Hall Hc Hname. induction Hall as [|c' name' l names Hc' _ IH].
  - by apply elem_of_nil in Hc.
  - apply elem_of_cons in Hc as [->|Hc].
    + rewrite Hc' in Hname. injection Hname as ->. apply list_elem_of_here.
    + apply list_elem_of_further. by apply IH.
Qed.

End Router.

(** X2. For every event name and payload, malformed ones included:
    each packet the router sends goes to a socket other than the sender
    and bears the name of the incoming event or, for an alert,
    [emergency_notification]; a payload that is a JSON value (nothing
    in it is [undefined]) is carried by every packet unchanged; an
    event with any other name than the three that have a listener sends
    nothing and returns normally. *)
Theorem router_forwards_verbatim
    (rs : Rooms) (sender ev : string) (data : JsValue) :
  (∀ d, d ∈ sent (route sender ev data rs) →
        recipient d ≠ sender ∧
        (event d = ev ∨
         (ev = "emergency_alert" ∧ event d = "emergency_notification"))) ∧
  (is_json data = true →
   ∀ d, d ∈ sent (route sender ev data rs) → payload d = data) ∧
  (ev ≠ "device_update" → ev ≠ "emergency_alert" → ev ≠ "location_update" →
   route sender ev data rs = ([], inr tt)).
Proof.
  assert (Hall : ∀ d, d ∈ sent (route sender ev data rs) →
    payload d = data ∧ recipient d ≠ sender ∧
    (event d = ev ∨
     (ev = "emergency_alert" ∧ event d = "emergency_notification"))).
  { destruct (route_cases sender ev data)
      as [[-> ->]|[[-> ->]|[[-> ->]|(H1 & H2 & H3 & ->)]]].
    - intros d Hd. apply elem_of_to_emit in Hd. naive_solver.
    - intros d. rewrite on_emergency_alert_unfold. cbn zeta.
      assert (Hadm : ∀ d,
        d ∈ sent (to_emit sender "admin_room" "emergency_alert" data rs) →
        payload d = data ∧ recipient d ≠ sender ∧
        (event d = "emergency_alert" ∨
         ("emergency_alert" = "emergency_alert" ∧
          event d = "emergency_notification"))).
      { intros d' Hd. apply elem_of_to_emit in Hd. naive_solver. }
      destruct (get data "contacts") as [e|contacts]; [apply Hadm|].
      destruct (truthy contacts); [|apply Hadm].
      destruct contacts; try apply Hadm.
      unfold sent at 1. cbn [fst]. rewrite elem_of_app.
      intros [Hd|Hd]; [by apply Hadm|].
      apply elem_of_forEach_notify in Hd. naive_solver.
    - intros d Hd. apply elem_of_to_emit in Hd. naive_solver.
    - intros d Hd. by apply elem_of_nil in Hd. }
  split; [|split].
  - intros d Hd. by destruct (Hall d Hd) as (_ & ? & ?).
  - intros _ d Hd. by destruct (Hall d Hd) as (? & _).
  - intros H1 H2 H3.
    by destruct (route_cases sender ev data)
      as [[-> _]|[[-> _]|[[-> _]|(_ & _ & _ & ->)]]].
Qed.

Lemma router_forwards_verbatim_witness :
  (∀ d, d ∈ sent (route Examples.sidB "device_update" (JNumber 3)
                        (rooms Examples.st2)) → payload d = JNumber 3) ∧
  route Examples.sidB "ping" (JNumber 1) (rooms Examples.st2) = ([], inr tt).
Proof.
  split.
  - exact (proj1 (proj2 (router_forwards_verbatim (rooms Examples.st2)
                           Examples.sidB "device_update" (JNumber 3)))
             eq_refl).
  - apply (proj2 (proj2 (router_forwards_verbatim (rooms Examples.st2)
                           Examples.sidB "ping" (JNumber 1)))); discriminate.
Defined.



(** An alert stops at the first contact without a string form: the
    admins and the contacts before it have been served. *)
Example unconvertible_contact_scenario :
  route Examples.sidB "emergency_alert"
        (JObject [("contacts",
                   JArray [JNumber 1; JObject [("toString", JNumber 1)];
                           JNumber 1])])
        (rooms Examples.st2)
  = ((λ ev, {| recipient := Examples.sidA; event := ev;
               payload :=
                 JObject [("contacts",
                           JArray [JNumber 1;
                                   JObject [("toString", JNumber 1)];
                                   JNumber 1])] |})
       <$> ["emergency_alert"; "emergency_notification"],
     inl TypeError).
Proof. vm_compute. reflexivity. Qed.

(** X4. An alert whose [contacts] is an array of any length, each
    element with a string form (numbers within the safe integers),
    returns normally; a packet is sent exactly to the members of
    [admin_room] (as [emergency_alert]) and to the members of
    [user_<name>] for the string form [name] of each listed contact (as
    [emergency_notification]), the sender aside; and the number of
    packets is one per admin plus one per listed contact and member of
    its room, so a contact listed twice is notified twice and an empty
    array notifies nobody. *)
Theorem alert_fanout_over_contacts
    (rs : Rooms) (sender : string) (data : JsValue) (l : list JsValue)
    (names : list string) :
  get data "contacts" = inr (JArray l) →
  Forall2 (λ c name, to_string c = inr name) l names →
  Forall (λ c, plain_decimal c = true) l →
  thrown (route sender "emergency_alert" data rs) = None ∧
  (∀ d, d ∈ sent (route sender "emergency_alert" data rs) ↔
        recipient d ≠ sender ∧ payload d = data ∧
        ((event d = "emergency_alert" ∧
          recipient d ∈ members rs "admin_room") ∨
         (event d = "emergency_notification" ∧
          ∃ name, name ∈ names ∧
                  recipient d ∈ members rs ("user_" +:+ name)))) ∧
  length (sent (route sender "emergency_alert" data rs)) =
    (size (members rs "admin_room" ∖ {[sender]}) +
     sum_list_with
       (λ name, size (members rs ("user_" +:+ name) ∖ {[sender]})) names)%nat.
Proof.
  intros Hc Hnames _. rewrite (alert_with_array _ _ _ _ _ Hc Hnames).
  split; [reflexivity|]. unfold sent at 1 4. cbn [fst]. split.
  - intros d. rewrite elem_of_app, elem_of_to_emit, elem_of_notifications.
    naive_solver.
  - by rewrite length_app, length_to_emit, length_notifications.
Qed.

Lemma alert_fanout_over_contacts_witness :
  length (sent (route Examples.sidB "emergency_alert"
                      (JObject [("contacts", JArray [JNumber 1; JNumber 1])])
                      (rooms Examples.st2))) =
    (size (members (rooms Examples.st2) "admin_room" ∖ {[Examples.sidB]}) +
     sum_list_with
       (λ name, size (members (rooms Examples.st2) ("user_" +:+ name)
                        ∖ {[Examples.sidB]}))
       ["1"; "1"])%nat.
Proof.
  apply (alert_fanout_over_contacts (rooms Examples.st2) Examples.sidB
           (JObject [("contacts", JArray [JNumber 1; JNumber 1])])
           [JNumber 1; JNumber 1] ["1"; "1"]).
  - reflexivity.
  - repeat constructor.
  - repeat constructor.
Defined.

(** A contact listed twice is notified twice. *)
Example duplicate_contact_scenario :
  sent (route Examples.sidB "emergency_alert"
              (JObject [("contacts", JArray [JNumber 1; JNumber 1])])
              (rooms Examples.st2))
  = (λ ev, {| recipient := Examples.sidA; event := ev;
              payload := JObject [("contacts",
                                   JArray [JNumber 1; JNumber 1])] |})
      <$> ["emergency_alert"; "emergency_notification";
           "emergency_notification"].
Proof. vm_compute. reflexivity. Qed.

(** ** Who gets what, from connection to delivery *)

(** X5. While the server runs, a [device_update] or [location_update]
    emitted by a connected socket is delivered to every other connected
    socket whose role is ["admin"] or ["government"], and the server
    state is unchanged. *)
Theorem updates_reach_every_other_admin
    (env : Env) (st : State) (sender ev : string) (data : JsValue)
    (r : string) (socket : Socket) :
  reachable env st → running st = true →
  is_Some (sockets st !! sender) →
  ev = "device_update" ∨ ev = "location_update" →
  sockets st !! r = Some socket → r ≠ sender →
  userRole socket = JString "admin" ∨ userRole socket = JString "government" →
  ∃ out, exec env st (Emit sender ev data) = Some (st, out) ∧
         {| recipient := r; event := ev; payload := data |} ∈ out.
Proof.
  intros Hreach Hrun Hsender Hev Hr Hne Hrole.
  pose proof (reachable_membership_exact _ _ Hreach) as Hex.
  destruct (reachable_running_converts _ _ Hreach Hrun _ _ Hr) as [name Hn].
  assert (Hin : r ∈ members (rooms st) "admin_room").
  { apply Hex. exists socket. split; [done|].
    apply elem_of_joined_rooms. right. exists name. split; [done|]. right.
    by rewrite is_admin_role_true. }
  assert (Hroute : route sender ev data
                   = to_emit sender "admin_room" ev data)
    by (by destruct Hev as [-> | ->]).
  exists (sent (route sender ev data (rooms st))). split.
  - apply exec_emit_returns; [done|done|]. by rewrite Hroute.
  - rewrite Hroute. by apply elem_of_to_emit.
Qed.

Lemma updates_reach_every_other_admin_witness :
  ∃ out,
    exec Examples.env0 Examples.st2
         (Emit Examples.sidB "device_update" (JNumber 3))
      = Some (Examples.st2, out) ∧
    {| recipient := Examples.sidA; event := "device_update";
       payload := JNumber 3 |} ∈ out.
Proof.
  apply (updates_reach_every_other_admin Examples.env0 Examples.st2
           Examples.sidB "device_update" (JNumber 3) Examples.sidA
           {| userId := JNumber 1; userRole := JString "admin" |}).
  - apply st2_reachable.
  - reflexivity.
  - by eexists.
  - by left.
  - reflexivity.
  - discriminate.
  - by left.
Defined.

(** X6. While the server runs, an alert of a connected socket whose
    [contacts] is an array, each element with a string form, is
    delivered as [emergency_notification] to every other connected
    socket whose [userId] has the string form of a listed contact (so
    the number [42] and the string ["42"] name the same sockets, and
    every socket of that user is reached); the server state is
    unchanged.  Numbers are within the safe integers. *)
Theorem alert_reaches_named_contacts
    (env : Env) (st : State) (sender : string) (data : JsValue)
    (l : list JsValue) (names : list string) (c : JsValue) (name : string)
    (r : string) (socket : Socket) :
  reachable env st → running st = true →
  is_Some (sockets st !! sender) →
  get data "contacts" = inr (JArray l) →
  Forall2 (λ c name, to_string c = inr name) l names →
  Forall (λ c, plain_decimal c = true) l →
  c ∈ l → to_string c = inr name →
  sockets st !! r = Some socket → r ≠ sender →
  to_string (userId socket) = inr name →
  plain_decimal (userId socket) = true →
  ∃ out, exec env st (Emit sender "emergency_alert" data) = Some (st, out) ∧
         {| recipient := r; event := "emergency_notification";
            payload := data |} ∈ out.
Proof.
  intros Hex%reachable_membership_exact Hrun Hsender Hc Hnames _ Hcl Hname
    Hr Hne Hstr _.
  assert (Hin : r ∈ members (rooms st) ("user_" +:+ name)).
  { apply Hex. exists socket. split; [done|].
    apply elem_of_joined_rooms. right. exists name. auto. }
  exists (sent (route sender "emergency_alert" data (rooms st))). split.
  - apply exec_emit_returns; [done|done|].
    by rewrite (alert_with_array _ _ _ _ _ Hc Hnames).
  - rewrite (alert_with_array _ _ _ _ _ Hc Hnames). unfold sent at 1.
    cbn [fst]. apply elem_of_app. right. apply elem_of_notifications. simpl.
    repeat split; try done. exists name. split; [|done].
    by eapply converted_name.
Qed.

Lemma alert_reaches_named_contacts_witness :
  ∃ out,
    exec Examples.env0 Examples.st2
         (Emit Examples.sidA "emergency_alert"
               (JObject [("contacts", JArray [JString "42"])]))
      = Some (Examples.st2, out) ∧
    {| recipient := Examples.sidB; event := "emergency_notification";
       payload := JObject [("contacts", JArray [JString "42"])] |} ∈ out.
Proof.
  apply (alert_reaches_named_contacts Examples.env0 Examples.st2
           Examples.sidA (JObject [("contacts", JArray [JString "42"])])
           [JString "42"] ["42"] (JString "42") "42" Examples.sidB
           {| userId := JNumber 42; userRole := JString "user" |}).
  - apply st2_reachable.
  - reflexivity.
  - by eexists.
  - reflexivity.
  - repeat constructor.
  - repeat constructor.
  - apply list_elem_of_here.
  - reflexivity.
  - reflexivity.
  - discriminate.
  - reflexivity.
  - reflexivity.
Defined.

(** X7. Every packet the server sends for an event goes to a connected
    socket other than the sender.  A packet that is not an
    [emergency_notification] goes to a socket whose role is ["admin"]
    or ["government"]; an [emergency_notification] comes from an alert
    and goes to a socket whose [userId] has the string form of a listed
    contact (or whose own id is the name of that contact's room).
    Numbers among the contacts and in the recipient's [userId] are
    within the safe integers. *)
Theorem packets_reach_entitled_sockets
    (env : Env) (st st' : State) (sender ev : string) (data : JsValue)
    (out : list Delivery) (d : Delivery) :
  reachable env st →
  exec env st (Emit sender ev data) = Some (st', out) → d ∈ out →
  Forall (λ c, plain_decimal c = true) (Sessions.contacts_of data) →
  (∀ socket, sockets st !! recipient d = Some socket →
             plain_decimal (userId socket) = true) →
  ∃ socket,
    sockets st !! recipient d = Some socket ∧ recipient d ≠ sender ∧
    ((event d ≠ "emergency_notification" ∧
      (userRole socket = JString "admin" ∨
       userRole socket = JString "government")) ∨
     (event d = "emergency_notification" ∧ ev = "emergency_alert" ∧
      ∃ c name, c ∈ Sessions.contacts_of data ∧ to_string c = inr name ∧
                (to_string (userId socket) = inr name ∨
                 recipient d = "user_" +:+ name))).
Proof.
  intros Hreach Hstep Hd _ _.
  pose proof (reachable_consistent _ _ Hreach) as [_ Hadm].
  pose proof (reachable_membership_exact _ _ Hreach) as Hex.
  apply exec_emit in Hstep as (_ & -> & _ & _).
  assert (Hprivileged : ∀ ev',
    ev' ≠ "emergency_notification" →
    d ∈ sent (to_emit sender "admin_room" ev' data (rooms st)) →
    ∃ socket,
      sockets st !! recipient d = Some socket ∧ recipient d ≠ sender ∧
      ((event d ≠ "emergency_notification" ∧
        (userRole socket = JString "admin" ∨
         userRole socket = JString "government")) ∨
       (event d = "emergency_notification" ∧ ev = "emergency_alert" ∧
        ∃ c name, c ∈ Sessions.contacts_of data ∧ to_string c = inr name ∧
                  (to_string (userId socket) = inr name ∨
                   recipient d = "user_" +:+ name)))).
  { intros ev' Hev' (Hin & Hne & He & _)%elem_of_to_emit.
    destruct (Hadm _ Hin) as (socket & Hs & Hrole%is_admin_role_true).
    exists socket. split; [done|]. split; [done|]. left.
    split; [congruence|done]. }
  destruct (route_cases sender ev data)
    as [[-> Hr]|[[-> Hr]|[[-> Hr]|(_ & _ & _ & Hr)]]]; rewrite Hr in Hd.
  - (eapply Hprivileged; [|exact Hd]; discriminate).
  - rewrite on_emergency_alert_unfold in Hd. cbn zeta in Hd.
    destruct (get data "contacts") as [e|contacts] eqn:Hc;
      [(eapply Hprivileged; [|exact Hd]; discriminate)|].
    destruct (truthy contacts);
      [|(eapply Hprivileged; [|exact Hd]; discriminate)].
    destruct contacts as [| | | | |l|];
      try (eapply Hprivileged; [|exact Hd]; discriminate).
    unfold sent at 1 in Hd. cbn [fst] in Hd.
    apply elem_of_app in Hd as [Hd|Hd];
      [(eapply Hprivileged; [|exact Hd]; discriminate)|].
    apply elem_of_forEach_notify in Hd
      as (Hne & _ & He & c & name & Hcl & Hname & Hin).
    apply Hex in Hin as (socket & Hs & Hroom).
    exists socket. split; [done|]. split; [done|]. right.
    split; [done|]. split; [done|]. exists c, name. split.
    { unfold Sessions.contacts_of. by rewrite Hc. }
    split; [done|].
    apply elem_of_joined_rooms in Hroom as [Hroom|(name' & Hn' & Hroom)].
    + by right.
    + destruct Hroom as [Hroom|[Hroom _]]; [|discriminate].
      left. apply user_room_inj in Hroom. by subst name'.
  - (eapply Hprivileged; [|exact Hd]; discriminate).
  - by apply elem_of_nil in Hd.
Qed.

Lemma packets_reach_entitled_sockets_witness :
  ∃ socket,
    sockets Examples.st2 !! Examples.sidA = Some socket ∧
    Examples.sidA ≠ Examples.sidB ∧
    (("emergency_notification" ≠ "emergency_notification" ∧
      (userRole socket = JString "admin" ∨
       userRole socket = JString "government")) ∨
     ("emergency_notification" = "emergency_notification" ∧
      "emergency_alert" = "emergency_alert" ∧
      ∃ c name, c ∈ Sessions.contacts_of Examples.alert_42_1 ∧
                to_string c = inr name ∧
                (to_string (userId socket) = inr name ∨
                 Examples.sidA = "user_" +:+ name))).
Proof.
  apply (packets_reach_entitled_sockets Examples.env0 Examples.st2
           Examples.st2 Examples.sidB "emergency_alert" Examples.alert_42_1
           [{| recipient := Examples.sidA; event := "emergency_alert";
               payload := Examples.alert_42_1 |};
            {| recipient := Examples.sidA; event := "emergency_notification";
               payload := Examples.alert_42_1 |}]
           {| recipient := Examples.sidA; event := "emergency_notification";
              payload := Examples.alert_42_1 |}).
  - apply st2_reachable.
  - vm_compute. reflexivity.
  - apply list_elem_of_further, list_elem_of_here.
  - repeat constructor.
  - intros socket Hs. vm_compute in Hs. injection Hs as <-. reflexivity.
Defined.

(** ** Issued tokens at the handshake *)

Section IssuedTokens.
Variable env : Env.

Lemma generated_exp issued uid j :
  generateToken env issued uid = inr j →
  get (jws_payload j) "exp"
  = inr (JNumber (issued + default seven_days (JWT_EXPIRE env))).
Proof. intros (_ & _ & ->)%generateToken_inr. by destruct uid. Qed.

(** A token of [generateToken] verifies exactly until its [exp]. *)
Lemma verify_generated issued uid j now :
  generateToken env issued uid = inr j →
  verify (Compact j) (JWT_SECRET env) now =
  if now <? issued + default seven_days (JWT_EXPIRE env)
  then inr (jws_payload j) else inl TokenExpiredError.
Proof.
  intros Hgen.
  pose proof (generated_exp _ _ _ Hgen) as Hexp.
  destruct (generated_claims _ _ _ _ Hgen) as [_ Hother].
  destruct (generateToken_inr _ _ _ _ Hgen) as (Hs & Hk & _).
  unfold verify. apply String.eqb_neq in Hs. rewrite Hs, Hk.
  rewrite String.eqb_refl. cbn [negb].
  rewrite (Hother "nbf") by discriminate. cbn [bind].
  rewrite Hexp. cbn [bind]. rewrite Z.leb_antisym.
  by destruct (now <? _).
Qed.

Lemma verify_without_secret token now :
  JWT_SECRET env = EmptyString →
  ∃ e, verify token (JWT_SECRET env) now = inl e.
Proof.
  intros ->. destruct token as [j|v]; simpl; [eauto|].
  destruct (truthy v); simpl; [|eauto]. destruct v; eauto.
Qed.

End IssuedTokens.

(** X8. A token made by [generateToken] at time [issued] passes the
    socket handshake at every time before [issued + expiresIn] (seven
    days unless [JWT_EXPIRE] is set), giving the socket the [userId] it
    was made for and no role; from that time on it is refused. *)
Theorem issued_token_handshake
    (env : Env) (issued now : Z) (uid : JsValue) (j : Jws) :
  generateToken env issued uid = inr j →
  io_use env now (Compact j) =
  if now <? issued + default seven_days (JWT_EXPIRE env)
  then inr {| userId := json uid; userRole := JUndefined |}
  else inl (Error "Authentication error").
Proof.
  intros Hgen. pose proof (verify_generated env _ _ _ now Hgen) as Hv.
  destruct (now <? _).
  - destruct (generated_claims _ _ _ _ Hgen) as [Hu Hother].
    eapply io_use_verified; [done|done|]. by apply Hother.
  - by eapply io_use_verify_failed.
Qed.

Lemma issued_token_handshake_witness :
  io_use Examples.env0 605799 (Compact Examples2.login_token)
    = inr {| userId := JNumber 7; userRole := JUndefined |} ∧
  io_use Examples.env0 605800 (Compact Examples2.login_token)
    = inl (Error "Authentication error").
Proof.
  split.
  - exact (issued_token_handshake Examples.env0 1000 605799 (JNumber 7)
             Examples2.login_token eq_refl).
  - exact (issued_token_handshake Examples.env0 1000 605800 (JNumber 7)
             Examples2.login_token eq_refl).
Defined.

(** X9. With [JWT_SECRET] unset or empty nothing authenticates:
    [generateToken] throws, so no login answers 200 or hands out a
    token, the socket handshake refuses every token, and [GET /verify]
    answers 401 to every request. *)
Theorem no_secret_no_session (env : Env) :
  JWT_SECRET env = EmptyString →
  (∀ now uid,
     generateToken env now uid
     = inl (Error "secretOrPrivateKey must have a value")) ∧
  (∀ deps now req,
     status (login env deps now req) ≠ 200 ∧
     token (login env deps now req) = None) ∧
  (∀ now tok, io_use env now tok = inl (Error "Authentication error")) ∧
  (∀ deps now req,
     VerifyRoute.v_status (VerifyRoute.verify_route env deps now req) = 401).
Proof.
  intros Hs.
  assert (Hgen : ∀ now uid,
    generateToken env now uid
    = inl (Error "secretOrPrivateKey must have a value")).
  { intros now uid. unfold generateToken, sign. by rewrite Hs. }
  split; [done|]. split; [|split].
  - intros deps now req. unfold login, login_try, bind, failure.
    repeat (case_match; simplify_eq/=; try done).
    all: match goal with
         | H : generateToken _ _ _ = inr _ |- _ => by rewrite Hgen in H
         end.
  - intros now tok.
    destruct (verify_without_secret env tok now Hs) as [e He].
    by eapply io_use_verify_failed.
  - intros deps now req.
    unfold VerifyRoute.verify_route, VerifyRoute.verify_try.
    destruct (negb (token_truthy (VerifyRoute.bearer req))); [done|].
    destruct (verify_without_secret env (VerifyRoute.bearer req) now Hs)
      as [e ->].
    done.
Qed.

Lemma no_secret_no_session_witness :
  status (login Examples2.env_no_secret Examples.deps0 1000 Examples.req0)
    = 500 ∧
  io_use Examples2.env_no_secret 2000 (Compact Examples2.login_token)
    = inl (Error "Authentication error").
Proof.
  split; [reflexivity|].
  exact (proj1 (proj2 (proj2 (no_secret_no_session Examples2.env_no_secret
                                eq_refl)))
           2000 (Compact Examples2.login_token)).
Defined.

(** ** [POST /login]: the answers *)

Section LetterCaseLemmas.
Import LetterCase.

Lemma lower_ascii_same_letter (a b : ascii) :
  same_letter a b = true → lower_ascii a = lower_ascii b.
Proof.
  unfold same_letter. intros [Heq|Hcase]%orb_true_iff.
  { by apply Ascii.eqb_eq in Heq as ->. }
  apply andb_true_iff in Hcase as [[Hlo Hhi]%andb_true_iff Hdiff].
  apply Nat.leb_le in Hlo, Hhi. apply Nat.eqb_eq in Hdiff.
  unfold lower_ascii.
  destruct (decide (nat_of_ascii a ≤ nat_of_ascii b)%nat) as [Hle|Hgt].
  - assert (((65 <=? nat_of_ascii a) && (nat_of_ascii a <=? 90))%nat = true)
      as -> by (apply andb_true_iff; split; apply Nat.leb_le; lia).
    assert (((65 <=? nat_of_ascii b) && (nat_of_ascii b <=? 90))%nat = false)
      as -> by (apply andb_false_iff; right; apply Nat.leb_gt; lia).
    replace (nat_of_ascii a + 32)%nat with (nat_of_ascii b) by lia.
    apply ascii_nat_embedding.
  - assert (((65 <=? nat_of_ascii b) && (nat_of_ascii b <=? 90))%nat = true)
      as -> by (apply andb_true_iff; split; apply Nat.leb_le; lia).
    assert (((65 <=? nat_of_ascii a) && (nat_of_ascii a <=? 90))%nat = false)
      as -> by (apply andb_false_iff; right; apply Nat.leb_gt; lia).
    replace (nat_of_ascii b + 32)%nat with (nat_of_ascii a) by lia.
    symmetry. apply ascii_nat_embedding.
Qed.

Lemma lower_same_up_to_case (s : string) : ∀ t,
  same_up_to_case s t = true → lower s = lower t.
Proof.
  induction s as [|a s IH]; intros [|b t]; simpl; try done.
  intros [Hab Hst]%andb_true_iff.
  by rewrite (lower_ascii_same_letter a b Hab), (IH t Hst).
Qed.

End LetterCaseLemmas.

(** X10. A login answers 200, 400, 401 or 500; [success] is true
    exactly in a 200 answer, and only a 200 answer carries a token and
    a user, only a 400 answer the validation errors, only a 500 answer
    an [error] field. *)
Theorem login_answer_shape
    (env : Env) (deps : Deps) (now : Z) (req : Request) :
  let r := login env deps now req in
  (status r = 200 ∨ status r = 400 ∨ status r = 401 ∨ status r = 500) ∧
  (success r = true ↔ status r = 200) ∧
  (is_Some (token r) ↔ status r = 200) ∧
  (is_Some (user r) ↔ status r = 200) ∧
  (is_Some (errors r) ↔ status r = 400) ∧
  (is_Some (error r) ↔ status r = 500).
Proof.
  unfold login, login_try, bind, failure.
  repeat (case_match; simplify_eq/=);
    (split; [tauto|]);
    repeat split; intros Hyp; try discriminate; try done;
    try (by destruct Hyp); eauto.
Qed.

Lemma login_answer_shape_witness :
  success (login Examples.env0 Examples2.deps_suspended 1000 Examples.req0)
    = true ↔
  status (login Examples.env0 Examples2.deps_suspended 1000 Examples.req0)
    = 200.
Proof.
  exact (proj1 (proj2 (login_answer_shape Examples.env0
                         Examples2.deps_suspended 1000 Examples.req0))).
Defined.

(** X11. A request with validation errors is answered 400 with those
    errors, whatever the database, the password check, the environment
    or the clock: nothing else is consulted. *)
Theorem login_validation_first
    (env : Env) (deps : Deps) (now : Z) (req : Request) :
  validation_errors req ≠ [] →
  login env deps now req =
  {| status := 400; success := false; message := "Validation failed";
     errors := Some (validation_errors req);
     token := None; user := None; error := None |}.
Proof.
  intros Hne. unfold login, login_try.
  destruct (validation_errors req); [done|reflexivity].
Qed.

Lemma login_validation_first_witness :
  login Examples.env0 Examples.deps0 1000
        {| validation_errors := [JString "Password is required"];
           req_email := JString "asha@example.org";
           req_password := JString EmptyString |} =
  {| status := 400; success := false; message := "Validation failed";
     errors := Some [JString "Password is required"];
     token := None; user := None; error := None |}.
Proof.
  apply (login_validation_first Examples.env0 Examples.deps0 1000
           {| validation_errors := [JString "Password is required"];
              req_email := JString "asha@example.org";
              req_password := JString EmptyString |}).
  discriminate.
Defined.

(** X12. An unknown email and a wrong password for an active account
    get the same answer, 401 ["Invalid credentials"]: the response does
    not tell which of the two was wrong. *)
Theorem login_invalid_credentials_alike
    (env : Env) (deps : Deps) (now : Z) (req : Request) (email : string) :
  validation_errors req = [] →
  db_connect deps = inr tt →
  toLowerCase (req_email req) = inr email →
  (db_select_by_email deps email = inr [] ∨
   ∃ row rest,
     db_select_by_email deps email = inr (row :: rest) ∧
     obj_get row "status" = JString "active" ∧
     bcrypt_compare deps (req_password req) (obj_get row "password")
       = inr false) →
  login env deps now req = failure 401 "Invalid credentials".
Proof.
  intros Hv Hc He Hcase. unfold login, login_try.
  rewrite Hv, Hc, He. cbn [length Nat.eqb negb bind].
  destruct Hcase as [-> | (row & rest & -> & Hst & Hpw)]; [reflexivity|].
  cbn [bind]. rewrite Hst, Hpw. reflexivity.
Qed.

Lemma login_invalid_credentials_alike_witness :
  login Examples.env0 Examples2.deps_wrong_password 1000 Examples.req0
  = login Examples.env0 Examples.deps0 1000
      {| validation_errors := [];
         req_email := JString "nobody@example.org";
         req_password := JString "password123" |}.
Proof.
  rewrite (login_invalid_credentials_alike Examples.env0
             Examples2.deps_wrong_password 1000 Examples.req0
             "asha@example.org" eq_refl eq_refl eq_refl).
  - reflexivity.
  - right. exists Examples.row7, []. repeat split; reflexivity.
Defined.

(** X13. An account whose [status] is not ['active'] is answered 401
    ["Account is not active"] before the password is looked at: the
    answer is the same for a right and a wrong password. *)
Theorem login_inactive_before_password
    (env : Env) (deps : Deps) (now : Z) (req : Request) (email : string)
    (row : list (string * JsValue)) (rest : list (list (string * JsValue))) :
  validation_errors req = [] →
  db_connect deps = inr tt →
  toLowerCase (req_email req) = inr email →
  db_select_by_email deps email = inr (row :: rest) →
  obj_get row "status" ≠ JString "active" →
  login env deps now req = failure 401 "Account is not active".
Proof.
  intros Hv Hc He Hrows Hst. unfold login, login_try.
  rewrite Hv, Hc, He. cbn [length Nat.eqb negb bind]. rewrite Hrows.
  cbn [bind].
  assert (strict_eq_string (obj_get row "status") "active" = false) as ->.
  { unfold strict_eq_string. destruct (obj_get row "status"); try done.
    apply String.eqb_neq. congruence. }
  reflexivity.
Qed.

Lemma login_inactive_before_password_witness :
  login Examples.env0 Examples2.deps_suspended 1000 Examples.req0
  = failure 401 "Account is not active".
Proof.
  apply (login_inactive_before_password Examples.env0
           Examples2.deps_suspended 1000 Examples.req0 "asha@example.org"
           Examples2.row8 []); try reflexivity.
  discriminate.
Defined.

(** X14. The email is looked up in lower case: two requests whose
    emails are the same character by character, up to the case of the
    letters A to Z, get the same answer. *)
Theorem login_email_case_insensitive
    (env : Env) (deps : Deps) (now : Z) (errs : list JsValue)
    (e1 e2 : string) (pw : JsValue) :
  LetterCase.same_up_to_case e1 e2 = true →
  login env deps now
        {| validation_errors := errs; req_email := JString e1;
           req_password := pw |}
  = login env deps now
        {| validation_errors := errs; req_email := JString e2;
           req_password := pw |}.
Proof.
  intros Heq%lower_same_up_to_case. unfold login, login_try. simpl.
  by rewrite Heq.
Qed.

Lemma login_email_case_insensitive_witness :
  login Examples.env0 Examples.deps0 1000 Examples.req0
  = login Examples.env0 Examples.deps0 1000
      {| validation_errors := [];
         req_email := JString "ASHA@EXAMPLE.ORG";
         req_password := JString "password123" |}.
Proof.
  apply (login_email_case_insensitive Examples.env0 Examples.deps0 1000 []
           "Asha@Example.org" "ASHA@EXAMPLE.ORG" (JString "password123")).
  reflexivity.
Defined.

(** X15. Outside the development environment a 500 answer carries an
    empty [error] string: the message of the error that was thrown
    (database, bcrypt, token signing) does not reach the client. *)
Theorem login_error_hidden
    (env : Env) (deps : Deps) (now : Z) (req : Request) :
  NODE_ENV env ≠ "development" →
  status (login env deps now req) = 500 →
  login env deps now req =
  {| status := 500; success := false; message := "Login failed";
     errors := None; token := None; user := None;
     error := Some EmptyString |}.
Proof.
  intros Hdev%String.eqb_neq. unfold login.
  destruct (login_try env deps now req) as [e|r] eqn:Htry.
  - by rewrite Hdev.
  - intros Hst. exfalso. revert Htry Hst.
    unfold login_try, bind, failure.
    repeat (case_match; simplify_eq/=); intros; simplify_eq/=.
Qed.

Lemma login_error_hidden_witness :
  error (login Examples.env0
               {| db_connect := inl (Error "connect ECONNREFUSED 127.0.0.1:5432");
                  db_select_by_email := db_select_by_email Examples.deps0;
                  db_touch := db_touch Examples.deps0;
                  bcrypt_compare := bcrypt_compare Examples.deps0 |}
               1000 Examples.req0)
  = Some EmptyString.
Proof.
  rewrite (login_error_hidden Examples.env0
             {| db_connect := inl (Error "connect ECONNREFUSED 127.0.0.1:5432");
                db_select_by_email := db_select_by_email Examples.deps0;
                db_touch := db_touch Examples.deps0;
                bcrypt_compare := bcrypt_compare Examples.deps0 |}
             1000 Examples.req0).
  - reflexivity.
  - discriminate.
  - reflexivity.
Defined.

(** ** [GET /verify] *)

Section VerifyRouteLemmas.
Import VerifyRoute.
Variable env : Env.

(** What [verify_route] answers, by cases. *)
Lemma verify_route_cases (deps : VerifyDeps) now (req : VerifyRequest) :
  (token_truthy (bearer req) = false ∧
   verify_route env deps now req = unauthorized "No token provided") ∨
  (token_truthy (bearer req) = true ∧
   verify_route env deps now req = unauthorized "Invalid token") ∨
  (∃ j uid row rest,
     bearer req = Compact j ∧
     verify (Compact j) (JWT_SECRET env) now = inr (jws_payload j) ∧
     vdb_connect deps = inr tt ∧
     get (jws_payload j) "userId" = inr uid ∧
     db_select_by_id deps uid = inr (row :: rest) ∧
     verify_route env deps now req =
     {| v_status := 200; v_success := true; v_message := None;
        v_user := Some row |}).
Proof.
  unfold verify_route, verify_try.
  destruct (token_truthy (bearer req)) eqn:Ht; [|by left]. right.
  cbn [negb].
  destruct (verify (bearer req) (JWT_SECRET env) now) as [e|claims] eqn:Hv;
    [by left|].
  destruct (verify_inr _ _ _ _ Hv) as (j & Hj & -> & _ & _ & Hget).
  cbn [bind]. destruct (vdb_connect deps) as [e|[]] eqn:Hc; [by left|].
  cbn [bind]. destruct (Hget "userId") as [uid Hu]. rewrite Hu. cbn [bind].
  destruct (db_select_by_id deps uid) as [e|[|row rest]] eqn:Hrows;
    [by left|by left|].
  right. exists j, uid, row, rest. rewrite Hj in Hv. done.
Qed.

End VerifyRouteLemmas.

(** X16. [GET /verify] answers 200 or 401 and nothing else, also when
    the database fails; [success] is true and a user is returned
    exactly in a 200 answer, and a 401 answer says ["No token
    provided"] when the header yields no token and ["Invalid token"]
    otherwise. *)
Theorem verify_answer_shape
    (env : Env) (deps : VerifyRoute.VerifyDeps) (now : Z)
    (req : VerifyRoute.VerifyRequest) :
  let r := VerifyRoute.verify_route env deps now req in
  (VerifyRoute.v_status r = 200 ∨ VerifyRoute.v_status r = 401) ∧
  (VerifyRoute.v_success r = true ↔ VerifyRoute.v_status r = 200) ∧
  (is_Some (VerifyRoute.v_user r) ↔ VerifyRoute.v_status r = 200) ∧
  (VerifyRoute.v_status r = 401 →
   VerifyRoute.v_message r =
   Some (if token_truthy (VerifyRoute.bearer req)
         then "Invalid token" else "No token provided")).
Proof.
  destruct (verify_route_cases env deps now req)
    as [[Ht ->]|[[Ht ->]|(j & uid & row & rest & Hb & _ & _ & _ & _ & ->)]];
    cbn zeta; simpl; rewrite ?Ht.
  - repeat split; try done; try (by intros []); by right.
  - repeat split; try done; try (by intros []); by right.
  - repeat split; try done; eauto.
Qed.

Lemma verify_answer_shape_witness :
  VerifyRoute.v_message
    (VerifyRoute.verify_route Examples.env0 Examples2.vdeps0 605800
       Examples2.bearer_request)
  = Some "Invalid token".
Proof.
  apply (proj2 (proj2 (proj2 (verify_answer_shape Examples.env0
                                Examples2.vdeps0 605800
                                Examples2.bearer_request)))).
  reflexivity.
Defined.

(** X17. Without an [Authorization] header, with a header of a single
    word, or with an empty second word, [GET /verify] answers 401 ["No
    token provided"] whatever the secret, the clock and the database. *)
Theorem verify_without_bearer
    (env : Env) (deps : VerifyRoute.VerifyDeps) (now : Z)
    (req : VerifyRoute.VerifyRequest) :
  VerifyRoute.authorization req = None ∨
  (∃ words, VerifyRoute.authorization req = Some words ∧
            (length words < 2)%nat) ∨
  (∃ words, VerifyRoute.authorization req = Some words ∧
            words !! 1%nat = Some (VerifyRoute.WText EmptyString)) →
  VerifyRoute.verify_route env deps now req
  = VerifyRoute.unauthorized "No token provided".
Proof.
  intros Hhdr.
  assert (Ht : token_truthy (VerifyRoute.bearer req) = false).
  { unfold VerifyRoute.bearer.
    destruct Hhdr as [-> | [(words & -> & Hlen)|(words & -> & ->)]];
      [done| |done].
    by rewrite (lookup_ge_None_2 words 1) by lia. }
  unfold VerifyRoute.verify_route, VerifyRoute.verify_try. by rewrite Ht.
Qed.

Lemma verify_without_bearer_witness :
  VerifyRoute.verify_route Examples.env0 Examples2.vdeps0 2000
    {| VerifyRoute.authorization :=
         Some [VerifyRoute.WJws Examples2.login_token] |}
  = VerifyRoute.unauthorized "No token provided".
Proof.
  apply (verify_without_bearer Examples.env0 Examples2.vdeps0 2000
           {| VerifyRoute.authorization :=
                Some [VerifyRoute.WJws Examples2.login_token] |}).
  right. left. eexists. split; [reflexivity|]. simpl. lia.
Defined.

(** X18. [GET /verify] answers 200 only when the second word of the
    header is a token that [jwt.verify] accepts, the database connects,
    and the query for the token's [userId] returns a row; the user of
    the answer is the first such row. *)
Theorem verify_ok_only_for_valid_token
    (env : Env) (deps : VerifyRoute.VerifyDeps) (now : Z)
    (req : VerifyRoute.VerifyRequest) :
  VerifyRoute.v_status (VerifyRoute.verify_route env deps now req) = 200 →
  ∃ scheme j more uid row rest,
    VerifyRoute.authorization req
      = Some (scheme :: VerifyRoute.WJws j :: more) ∧
    jws_key j = JWT_SECRET env ∧
    verify (Compact j) (JWT_SECRET env) now = inr (jws_payload j) ∧
    VerifyRoute.vdb_connect deps = inr tt ∧
    get (jws_payload j) "userId" = inr uid ∧
    VerifyRoute.db_select_by_id deps uid = inr (row :: rest) ∧
    VerifyRoute.v_user (VerifyRoute.verify_route env deps now req)
      = Some row.
Proof.
  destruct (verify_route_cases env deps now req)
    as [[_ ->]|[[_ ->]|(j & uid & row & rest & Hb & Hv & Hc & Hu & Hr & ->)]];
    [discriminate|discriminate|].
  intros _. unfold VerifyRoute.bearer in Hb.
  destruct (VerifyRoute.authorization req) as [words|]; [|discriminate].
  destruct words as [|scheme [|w more]]; try discriminate.
  simpl in Hb. destruct w as [j'|s]; [|discriminate]. simpl in Hb.
  injection Hb as ->.
  destruct (verify_inr _ _ _ _ Hv) as (j' & Hj & _ & Hk & _).
  injection Hj as <-.
  exists scheme, j, more, uid, row, rest. done.
Qed.

Lemma verify_ok_only_for_valid_token_witness :
  ∃ scheme j more uid row rest,
    VerifyRoute.authorization Examples2.bearer_request
      = Some (scheme :: VerifyRoute.WJws j :: more) ∧
    jws_key j = JWT_SECRET Examples.env0 ∧
    verify (Compact j) (JWT_SECRET Examples.env0) 2000
      = inr (jws_payload j) ∧
    VerifyRoute.vdb_connect Examples2.vdeps0 = inr tt ∧
    get (jws_payload j) "userId" = inr uid ∧
    VerifyRoute.db_select_by_id Examples2.vdeps0 uid = inr (row :: rest) ∧
    VerifyRoute.v_user
      (VerifyRoute.verify_route Examples.env0 Examples2.vdeps0 2000
         Examples2.bearer_request)
      = Some row.
Proof.
  apply (verify_ok_only_for_valid_token Examples.env0 Examples2.vdeps0 2000
           Examples2.bearer_request).
  reflexivity.
Defined.

(** X19. The token of a 200 login answer, sent back as the second word
    of the [Authorization] header before it expires, is accepted by
    [GET /verify], which then returns the row the database has for the
    token's [userId]; the first word of the header is not looked at. *)
Theorem login_token_is_verified
    (env : Env) (deps : Deps) (vdeps : VerifyRoute.VerifyDeps)
    (issued now : Z) (req : Request) (tok : Jws)
    (scheme : VerifyRoute.Word) (more : list VerifyRoute.Word)
    (uid : JsValue)
    (row : list (string * JsValue)) (rest : list (list (string * JsValue))) :
  token (login env deps issued req) = Some tok →
  now < issued + default seven_days (JWT_EXPIRE env) →
  VerifyRoute.vdb_connect vdeps = inr tt →
  get (jws_payload tok) "userId" = inr uid →
  VerifyRoute.db_select_by_id vdeps uid = inr (row :: rest) →
  VerifyRoute.verify_route env vdeps now
    {| VerifyRoute.authorization :=
         Some (scheme :: VerifyRoute.WJws tok :: more) |}
  = {| VerifyRoute.v_status := 200; VerifyRoute.v_success := true;
       VerifyRoute.v_message := None; VerifyRoute.v_user := Some row |}.
Proof.
  intros Htok Hnow Hc Hu Hrows.
  assert (Hgen : ∃ id, generateToken env issued id = inr tok).
  { revert Htok. unfold login, login_try, bind, failure.
    repeat (case_match; simplify_eq/=); intros; simplify_eq/=; eauto. }
  destruct Hgen as [id Hgen].
  pose proof (verify_generated env _ _ _ now Hgen) as Hv.
  apply Z.ltb_lt in Hnow. rewrite Hnow in Hv.
  unfold VerifyRoute.verify_route, VerifyRoute.verify_try, VerifyRoute.bearer.
  cbn [VerifyRoute.authorization lookup list_lookup VerifyRoute.word_token
       token_truthy negb].
  rewrite Hv. cbn [bind]. rewrite Hc. cbn [bind]. rewrite Hu. cbn [bind].
  by rewrite Hrows.
Qed.

Lemma login_token_is_verified_witness :
  VerifyRoute.verify_route Examples.env0 Examples2.vdeps0 2000
    Examples2.bearer_request
  = {| VerifyRoute.v_status := 200; VerifyRoute.v_success := true;
       VerifyRoute.v_message := None;
       VerifyRoute.v_user := Some Examples2.row7_public |}.
Proof.
  apply (login_token_is_verified Examples.env0 Examples.deps0
           Examples2.vdeps0 1000 2000 Examples.req0 Examples2.login_token
           (VerifyRoute.WText "Bearer") [] (JNumber 7)
           Examples2.row7_public []); try reflexivity.
Defined.

(** ** The rate limiter's configuration *)

Section ParseInt.
Import RateLimit.

Lemma digit_value_pretty_char (d : N) :
  (d < 10)%N → digit_value 10 (pretty_N_char d) = Some (Z.of_N d).
Proof.
  intros Hd.
  assert (d = 0 ∨ d = 1 ∨ d = 2 ∨ d = 3 ∨ d = 4 ∨ d = 5 ∨ d = 6 ∨ d = 7 ∨
          d = 8 ∨ d = 9)%N as Hcases by lia.
  repeat destruct Hcases as [->|Hcases]; try reflexivity.
  by subst d.
Qed.

Lemma all_decimal_pretty_go (x : N) : ∀ s,
  all_decimal s = true → all_decimal (pretty_N_go x s) = true.
Proof.
  induction (N.lt_wf_0 x) as [x _ IH]. intros s Hs.
  assert (x = 0 ∨ 0 < x)%N as [->|Hpos] by lia; [by rewrite pretty_N_go_0|].
  rewrite pretty_N_go_step by done. apply IH; [by apply N.div_lt|].
  cbn [all_decimal]. rewrite digit_value_pretty_char by by apply N.mod_lt.
  by rewrite Hs.
Qed.

(** Reading back the digits that [pretty] wrote. *)
Lemma read_digits_pretty_go (x : N) : ∀ s,
  read_digits 10 0 (pretty_N_go x s) = read_digits 10 (Z.of_N x) s.
Proof.
  induction (N.lt_wf_0 x) as [x _ IH]. intros s.
  assert (x = 0 ∨ 0 < x)%N as [->|Hpos] by lia; [by rewrite pretty_N_go_0|].
  rewrite pretty_N_go_step by done. rewrite IH by by apply N.div_lt.
  cbn [read_digits]. rewrite digit_value_pretty_char by by apply N.mod_lt.
  f_equal. pose proof (N.div_mod x 10). lia.
Qed.

Lemma decimal_head_parses (c : ascii) (rest : string) :
  is_Some (digit_value 10 c) → all_decimal rest = true →
  parseInt (String c rest)
  = to_double false (read_digits 10 0 (String c rest)).
Proof.
  intros Hc Hrest.
  destruct c as [[] [] [] [] [] [] [] []];
    try (exfalso; vm_compute in Hc; by destruct Hc);
    try reflexivity.
  destruct rest as [|c2 rest2]; [reflexivity|].
  cbn [all_decimal] in Hrest. apply andb_true_iff in Hrest as [Hc2 _].
  apply bool_decide_eq_true in Hc2.
  destruct c2 as [[] [] [] [] [] [] [] []];
    try (exfalso; vm_compute in Hc2; by destruct Hc2);
    reflexivity.
Qed.

Lemma parseInt_pretty_N (x : N) :
  (0 < x)%N →
  parseInt (pretty_N_go x EmptyString) = to_double false (Z.of_N x).
Proof.
  intros Hpos.
  pose proof (all_decimal_pretty_go x EmptyString eq_refl) as Hall.
  pose proof (read_digits_pretty_go x EmptyString) as Hread.
  destruct (pretty_N_go x EmptyString) as [|c rest] eqn:Hs.
  { simpl in Hread. lia. }
  cbn [all_decimal] in Hall. apply andb_true_iff in Hall as [Hc Hrest].
  apply bool_decide_eq_true in Hc.
  rewrite (decimal_head_parses c rest Hc Hrest). by rewrite Hread.
Qed.

Lemma magnitude_pretty_N (x : N) :
  (0 < x)%N → parse_magnitude (pretty_N_go x EmptyString) = Some (Z.of_N x).
Proof.
  intros Hpos.
  pose proof (all_decimal_pretty_go x EmptyString eq_refl) as Hall.
  pose proof (read_digits_pretty_go x EmptyString) as Hread.
  destruct (pretty_N_go x EmptyString) as [|c rest] eqn:Hs.
  { simpl in Hread. lia. }
  assert (Z.of_N x = read_digits 10 0 (String c rest)) as ->
    by (by rewrite Hread).
  clear Hread Hs.
  cbn [all_decimal] in Hall. apply andb_true_iff in Hall as [Hc Hrest].
  apply bool_decide_eq_true in Hc.
  destruct c as [[] [] [] [] [] [] [] []];
    try (exfalso; vm_compute in Hc; by destruct Hc);
    try reflexivity.
  destruct rest as [|c2 rest2]; [reflexivity|].
  cbn [all_decimal] in Hrest. apply andb_true_iff in Hrest as [Hc2 _].
  apply bool_decide_eq_true in Hc2.
  destruct c2 as [[] [] [] [] [] [] [] []];
    try (exfalso; vm_compute in Hc2; by destruct Hc2);
    reflexivity.
Qed.

(** [parseInt] reads back the decimal text of an integer. *)
Lemma parseInt_pretty (n : Z) :
  parseInt (pretty n) = to_double (bool_decide (n < 0)) (Z.abs n).
Proof.
  destruct n as [|p|p]; [reflexivity| |].
  - change (pretty (Z.pos p)) with (pretty (N.pos p)).
    unfold pretty, pretty_N. case_decide; [done|].
    by rewrite parseInt_pretty_N.
  - change (pretty (Z.neg p)) with (String "-" (pretty (N.pos p))).
    unfold pretty, pretty_N. case_decide; [done|].
    change (parseInt (String "-" (pretty_N_go (N.pos p) EmptyString)))
      with (match parse_magnitude (pretty_N_go (N.pos p) EmptyString) with
            | Some m => to_double true m
            | None => NotANumber
            end).
    by rewrite magnitude_pretty_N.
Qed.

Lemma parseInt_pretty_exact (n : Z) :
  Z.abs n ≤ 9007199254740992 → parseInt (pretty n) = Exact n.
Proof.
  intros Hn. rewrite parseInt_pretty. unfold to_double.
  rewrite (proj2 (Z.leb_le _ _) Hn). f_equal.
  case_bool_decide; lia.
Qed.

Lemma env_int_or_cases value fallback :
  env_int_or value fallback = Beyond ∨
  env_int_or value fallback = Exact fallback ∨
  ∃ n, n ≠ 0 ∧ env_int_or value fallback = Exact n.
Proof.
  unfold env_int_or. destruct value as [s|]; [|auto].
  destruct (parseInt s) as [|n|]; [auto| |auto].
  destruct (n =? 0) eqn:Hn; [auto|]. apply Z.eqb_neq in Hn. eauto.
Qed.

Lemma env_int_or_truthy value fallback :
  fallback ≠ 0 →
  env_int_or value fallback ≠ Exact 0 ∧
  env_int_or value fallback ≠ NotANumber.
Proof.
  intros Hf.
  destruct (env_int_or_cases value fallback) as [->|[->|(n & Hn & ->)]];
    split; congruence.
Qed.

(** A text that begins with a printable character other than a sign or
    a decimal digit is not a number. *)
Lemma parseInt_no_number (c : ascii) (rest : string) :
  (33 ≤ nat_of_ascii c ≤ 126)%nat →
  nat_of_ascii c ≠ 43%nat → nat_of_ascii c ≠ 45%nat →
  ¬ (48 ≤ nat_of_ascii c ≤ 57)%nat →
  parseInt (String c rest) = NotANumber.
Proof.
  intros Hrange Hplus Hminus Hdigit.
  destruct c as [[] [] [] [] [] [] [] []];
    first [reflexivity
          | exfalso; vm_compute in Hrange, Hplus, Hminus, Hdigit; lia].
Qed.

End ParseInt.

(** X20. The limiter never gets a window or a maximum that is 0 or
    [NaN].  A variable that is unset, empty, ["0"], or that begins with
    a printable character other than a sign or a decimal digit gives
    the default: 15 minutes for the window, 100 requests for the
    maximum. *)
Theorem limiter_options (env : RateLimit.LimitEnv) :
  RateLimit.windowMs (RateLimit.limiter env) ≠ RateLimit.Exact 0 ∧
  RateLimit.windowMs (RateLimit.limiter env) ≠ RateLimit.NotANumber ∧
  RateLimit.max (RateLimit.limiter env) ≠ RateLimit.Exact 0 ∧
  RateLimit.max (RateLimit.limiter env) ≠ RateLimit.NotANumber ∧
  ∀ value,
    (value = None ∨ value = Some EmptyString ∨ value = Some "0" ∨
     ∃ c rest, value = Some (String c rest) ∧
               (33 ≤ nat_of_ascii c ≤ 126)%nat ∧
               nat_of_ascii c ≠ 43%nat ∧ nat_of_ascii c ≠ 45%nat ∧
               ¬ (48 ≤ nat_of_ascii c ≤ 57)%nat) →
    (RateLimit.RATE_LIMIT_WINDOW_MS env = value →
     RateLimit.windowMs (RateLimit.limiter env) = RateLimit.Exact 900000) ∧
    (RateLimit.RATE_LIMIT_MAX_REQUESTS env = value →
     RateLimit.max (RateLimit.limiter env) = RateLimit.Exact 100).
Proof.
  split; [by apply env_int_or_truthy|].
  split; [by apply env_int_or_truthy|].
  split; [by apply env_int_or_truthy|].
  split; [by apply env_int_or_truthy|].
  intros value Hvalue.
  assert (Hdefault : ∀ fallback,
    RateLimit.env_int_or value fallback = RateLimit.Exact fallback).
  { intros fallback.
    destruct Hvalue as [->|[->|[->|(c & rest & -> & Hr & Hp & Hm & Hd)]]];
      try reflexivity.
    unfold RateLimit.env_int_or.
    by rewrite (parseInt_no_number c rest Hr Hp Hm Hd). }
  split; intros Hv; simpl; rewrite Hv; apply Hdefault.
Qed.

Lemma limiter_options_witness :
  RateLimit.windowMs
    (RateLimit.limiter
       {| RateLimit.RATE_LIMIT_WINDOW_MS := Some "0";
          RateLimit.RATE_LIMIT_MAX_REQUESTS := Some "many" |})
    = RateLimit.Exact 900000 ∧
  RateLimit.max
    (RateLimit.limiter
       {| RateLimit.RATE_LIMIT_WINDOW_MS := Some "0";
          RateLimit.RATE_LIMIT_MAX_REQUESTS := Some "many" |})
    = RateLimit.Exact 100.
Proof.
  split.
  - apply (proj1 (proj2 (proj2 (proj2 (proj2 (limiter_options
             {| RateLimit.RATE_LIMIT_WINDOW_MS := Some "0";
                RateLimit.RATE_LIMIT_MAX_REQUESTS := Some "many" |}))))
             (Some "0") ltac:(auto))).
    reflexivity.
  - apply (proj2 (proj2 (proj2 (proj2 (proj2 (limiter_options
             {| RateLimit.RATE_LIMIT_WINDOW_MS := Some "0";
                RateLimit.RATE_LIMIT_MAX_REQUESTS := Some "many" |}))))
             (Some "many")
             ltac:(right; right; right; exists "m"%char, "any";
                   split; [reflexivity|vm_compute; lia]))).
    reflexivity.
Defined.

(** What [parseInt] makes of some texts: white space of more than one
    byte is skipped, a [0x] prefix reads hexadecimal, and a number past
    the safe integers is no longer exact. *)
Example parseInt_scenarios :
  RateLimit.parseInt (String (ascii_of_nat 194) (String (ascii_of_nat 160) "60000"))
    = RateLimit.Exact 60000 ∧
  RateLimit.parseInt "  -5 per hour" = RateLimit.Exact (-5) ∧
  RateLimit.parseInt "0x10" = RateLimit.Exact 16 ∧
  RateLimit.parseInt "9007199254740992" = RateLimit.Exact 9007199254740992 ∧
  RateLimit.parseInt "9007199254740993" = RateLimit.Beyond ∧
  RateLimit.parseInt "-" = RateLimit.NotANumber.
Proof. repeat split; vm_compute; reflexivity. Qed.

(** X21. A variable holding the decimal text of an integer [n] other
    than 0, of magnitude at most 2^53, configures exactly [n]:
    [RATE_LIMIT_MAX_REQUESTS=250] allows 250 requests, and likewise for
    the window. *)
Theorem limiter_reads_decimal (env : RateLimit.LimitEnv) (n : Z) :
  n ≠ 0 → Z.abs n ≤ 9007199254740992 →
  (RateLimit.RATE_LIMIT_MAX_REQUESTS env = Some (pretty n) →
   RateLimit.max (RateLimit.limiter env) = RateLimit.Exact n) ∧
  (RateLimit.RATE_LIMIT_WINDOW_MS env = Some (pretty n) →
   RateLimit.windowMs (RateLimit.limiter env) = RateLimit.Exact n).
Proof.
  intros Hn%Z.eqb_neq Hsafe.
  split; intros Hv; simpl; rewrite Hv; unfold RateLimit.env_int_or;
    by rewrite (parseInt_pretty_exact n Hsafe), Hn.
Qed.

Lemma limiter_reads_decimal_witness :
  RateLimit.max (RateLimit.limiter
                   {| RateLimit.RATE_LIMIT_WINDOW_MS := None;
                      RateLimit.RATE_LIMIT_MAX_REQUESTS := Some "250" |})
  = RateLimit.Exact 250.
Proof.
  apply (limiter_reads_decimal
           {| RateLimit.RATE_LIMIT_WINDOW_MS := None;
              RateLimit.RATE_LIMIT_MAX_REQUESTS := Some "250" |} 250).
  - discriminate.
  - simpl. lia.
  - reflexivity.
Defined.

(** ** Database start-up *)

Section StartupLemmas.
Import Startup.
Variable m : Mongo.

Lemma perform_then (e : Effect) (r : JsError + unit) (k : Script unit) :
  (perform e r ;; k) =
  match r with
  | inl x => ([e], inl x)
  | inr _ => (e :: k.1, k.2)
  end.
Proof. destruct r as [x|[]]; [reflexivity|]. by destruct k. Qed.

Lemma create_each_cons i (l : list Index) :
  create_each m (i :: l)
  = (perform (CreateIndex i) (create_index m i) ;; create_each m l).
Proof. reflexivity. Qed.

Lemma create_each_all (l : list Index) :
  (∀ i, i ∈ l → create_index m i = inr tt) →
  create_each m l = (CreateIndex <$> l, inr tt).
Proof.
  induction l as [|i l IH]; intros Hok; [reflexivity|].
  rewrite create_each_cons, perform_then.
  rewrite (Hok i) by apply list_elem_of_here.
  rewrite IH; [reflexivity|]. intros i' Hi'. apply Hok. by right.
Qed.

Lemma create_each_until (pre : list Index) i (post : list Index) e :
  (∀ i', i' ∈ pre → create_index m i' = inr tt) →
  create_index m i = inl e →
  create_each m (pre ++ i :: post) = (CreateIndex <$> (pre ++ [i]), inl e).
Proof.
  intros Hok Hfail. induction pre as [|i0 pre IH].
  - cbn [app]. by rewrite create_each_cons, perform_then, Hfail.
  - cbn [app]. rewrite create_each_cons, perform_then.
    rewrite (Hok i0) by apply list_elem_of_here.
    rewrite IH; [reflexivity|]. intros i' Hi'. apply Hok. by right.
Qed.

Lemma attempted_create (l : list Index) :
  omap (λ e, match e with CreateIndex i => Some i | _ => None end)
       (CreateIndex <$> l) = l.
Proof.
  induction l as [|i l IH]; [reflexivity|].
  rewrite fmap_cons. cbn [omap list_omap]. fold (@omap list _).
  by f_equal.
Qed.

Lemma createIndexes_with (r : Script unit) :
  (∀ p, require_model m p = inr tt) →
  create_each m indexes = r →
  createIndexes m =
  ([Require "./models/Tourist"; Require "./models/Device";
    Require "./models/Alert"] ++ r.1 ++
   match r.2 with
   | inr _ => [ConsoleLog "✅ Database indexes created successfully" None]
   | inl e => [ConsoleError "❌ Error creating indexes:" e]
   end,
   inr tt).
Proof.
  intros Hreq Hr. unfold createIndexes, try_catch, mbind, script_bind,
    perform, console_log, console_error.
  rewrite !Hreq, Hr. destruct r as [effs [e|[]]]; simpl;
    by rewrite ?app_nil_r.
Qed.

Lemma createIndexes_returns : (createIndexes m).2 = inr tt.
Proof.
  unfold createIndexes, try_catch, console_error, perform.
  by destruct (_ ≫= _) as [effs [e|[]]].
Qed.

End StartupLemmas.

(** X22. [createIndexes] never throws.  When the models load, the
    indexes are built in the order of the source: if all fourteen
    succeed, all are built and the success line is logged; if one
    fails, those before it are built, none after it is tried, and the
    error is logged instead. *)
Theorem createIndexes_stops_at_first_failure (m : Startup.Mongo) :
  (Startup.createIndexes m).2 = inr tt ∧
  ((∀ p, Startup.require_model m p = inr tt) →
   ((∀ i, i ∈ Startup.indexes → Startup.create_index m i = inr tt) →
    Startup.attempted (Startup.createIndexes m) = Startup.indexes ∧
    Startup.ConsoleLog "✅ Database indexes created successfully" None
      ∈ (Startup.createIndexes m).1) ∧
   (∀ pre i post e,
      Startup.indexes = pre ++ i :: post →
      (∀ i', i' ∈ pre → Startup.create_index m i' = inr tt) →
      Startup.create_index m i = inl e →
      Startup.attempted (Startup.createIndexes m) = pre ++ [i] ∧
      (Startup.createIndexes m).1 =
        [Startup.Require "./models/Tourist"; Startup.Require "./models/Device";
         Startup.Require "./models/Alert"] ++
        (Startup.CreateIndex <$> (pre ++ [i])) ++
        [Startup.ConsoleError "❌ Error creating indexes:" e])).
Proof.
  split; [apply createIndexes_returns|]. intros Hreq. split.
  - intros Hok.
    rewrite (createIndexes_with m _ Hreq (create_each_all m _ Hok)).
    unfold Startup.attempted. cbn [fst snd]. split.
    + rewrite !omap_app, attempted_create. reflexivity.
    + rewrite !elem_of_app. right. right. apply list_elem_of_here.
  - intros pre i post e Hsplit Hok Hfail.
    pose proof (create_each_until m pre i post e Hok Hfail) as Hrun.
    rewrite <- Hsplit in Hrun.
    rewrite (createIndexes_with m _ Hreq Hrun).
    unfold Startup.attempted. cbn [fst snd]. split; [|reflexivity].
    rewrite !omap_app, attempted_create. simpl. by rewrite app_nil_r.
Qed.

Lemma createIndexes_stops_at_first_failure_witness :
  Startup.attempted (Startup.createIndexes Examples3.mongo_duplicate_devices)
  = take 6 Startup.indexes.
Proof.
  destruct (createIndexes_stops_at_first_failure
              Examples3.mongo_duplicate_devices) as [_ Hruns].
  destruct (Hruns (λ _, eq_refl)) as [_ Hfail].
  destruct (Hfail (take 5 Startup.indexes)
                  {| Startup.model := "Device";
                     Startup.keys := [("deviceId", JNumber 1)];
                     Startup.unique := true |}
                  (drop 6 Startup.indexes)
                  (Error "E11000 duplicate key error")) as [Hatt _].
  - reflexivity.
  - intros i' Hi'. simpl in Hi'.
    repeat (apply elem_of_cons in Hi' as [->|Hi']; [reflexivity|]).
    by apply elem_of_nil in Hi'.
  - reflexivity.
  - exact Hatt.
Defined.

(** X23. [connectDB] never throws, so the server starts without a
    database.  When the connection fails, the error and the two notice
    lines are logged and no model is loaded and no index is tried; when
    it succeeds, [createIndexes] runs, and a failure in it does not log
    the connection notice.  The URI is [MONGODB_TEST_URI] as it is (also
    when unset) if [NODE_ENV] is ['test'], and otherwise [MONGODB_URI]
    unless that is unset or empty, when it is the localhost default. *)
Theorem connectDB_outcome
    (env : Env) (menv : Startup.MongoEnv) (m : Startup.Mongo) :
  let uri := Startup.mongoURI env menv in
  (Startup.connectDB env menv m).2 = inr tt ∧
  (∀ e, Startup.mongoose_connect m uri = inl e →
     (Startup.connectDB env menv m).1 =
     [Startup.ConsoleLog "Connecting to MongoDB:" (Some uri);
      Startup.MongooseConnect uri;
      Startup.ConsoleError "❌ MongoDB connection error:" e;
      Startup.ConsoleLog
        "⚠️  Starting server without database connection..." None;
      Startup.ConsoleLog
        "💡 To fix this, install MongoDB or use MongoDB Atlas" None]) ∧
  (Startup.mongoose_connect m uri = inr tt →
     (Startup.connectDB env menv m).1 =
     [Startup.ConsoleLog "Connecting to MongoDB:" (Some uri);
      Startup.MongooseConnect uri;
      Startup.ConsoleLog "✅ MongoDB connected successfully" None] ++
     (Startup.createIndexes m).1) ∧
  (NODE_ENV env = "test" →
     uri = Startup.env_value (Startup.MONGODB_TEST_URI menv)) ∧
  (NODE_ENV env ≠ "test" →
     uri = match Startup.MONGODB_URI menv with
           | Some (String c s) => JString (String c s)
           | _ => JString "mongodb://localhost:27017/tourist-safety-platform"
           end).
Proof.
  cbn zeta.
  pose proof (createIndexes_returns m) as Hci.
  split; [|split; [|split; [|split]]].
  - unfold Startup.connectDB, Startup.try_catch, mbind, Startup.script_bind,
      Startup.console_log, Startup.console_error, Startup.perform.
    destruct (Startup.mongoose_connect m _) as [e|[]]; [reflexivity|].
    destruct (Startup.createIndexes m) as [effs r]. simpl in Hci.
    by rewrite Hci.
  - intros e He.
    unfold Startup.connectDB, Startup.try_catch, mbind, Startup.script_bind,
      Startup.console_log, Startup.console_error, Startup.perform.
    by rewrite He.
  - intros Hok.
    unfold Startup.connectDB, Startup.try_catch, mbind, Startup.script_bind,
      Startup.console_log, Startup.console_error, Startup.perform.
    rewrite Hok. destruct (Startup.createIndexes m) as [effs r].
    simpl in Hci. by rewrite Hci.
  - intros Htest. unfold Startup.mongoURI. by rewrite Htest.
  - intros Htest%String.eqb_neq. unfold Startup.mongoURI. rewrite Htest.
    by destruct (Startup.MONGODB_URI menv) as [[|c s]|].
Qed.

Lemma connectDB_outcome_witness :
  (Startup.connectDB Examples.env0 Examples3.menv0 Examples3.mongo_down).1 =
  [Startup.ConsoleLog "Connecting to MongoDB:"
     (Some (JString "mongodb://db.internal/tourists"));
   Startup.MongooseConnect (JString "mongodb://db.internal/tourists");
   Startup.ConsoleError "❌ MongoDB connection error:"
     (Error "connect ECONNREFUSED");
   Startup.ConsoleLog
     "⚠️  Starting server without database connection..." None;
   Startup.ConsoleLog
     "💡 To fix this, install MongoDB or use MongoDB Atlas" None].
Proof.
  exact (proj1 (proj2 (connectDB_outcome Examples.env0 Examples3.menv0
                         Examples3.mongo_down))
           (Error "connect ECONNREFUSED") eq_refl).
Defined.

(** ** A session that comes and goes *)

Section RoundTrip.
Implicit Types (rs : Rooms) (sender room ev : string) (data : JsValue).

Lemma to_emit_ext sender room ev data rs1 rs2 :
  (∀ room', members rs1 room' = members rs2 room') →
  to_emit sender room ev data rs1 = to_emit sender room ev data rs2.
Proof. intros Hm. unfold to_emit. by rewrite Hm. Qed.

Lemma forEach_notify_ext sender data (l : list JsValue) rs1 rs2 :
  (∀ room, members rs1 room = members rs2 room) →
  forEach (JArray l) (notify sender data) rs1
  = forEach (JArray l) (notify sender data) rs2.
Proof.
  intros Hm. induction l as [|c l IH]; [reflexivity|].
  rewrite !forEach_cons, !notify_unfold, IH.
  destruct (to_string c) as [e|name]; [reflexivity|].
  by rewrite (to_emit_ext sender _ "emergency_notification" data rs1 rs2 Hm).
Qed.

(** Routing looks at the rooms through their members only. *)
Lemma route_ext sender ev data rs1 rs2 :
  (∀ room, members rs1 room = members rs2 room) →
  route sender ev data rs1 = route sender ev data rs2.
Proof.
  intros Hm.
  destruct (route_cases sender ev data)
    as [[-> ->]|[[-> ->]|[[-> ->]|(_ & _ & _ & ->)]]];
    [by apply to_emit_ext| |by apply to_emit_ext|reflexivity].
  rewrite !on_emergency_alert_unfold. cbn zeta.
  rewrite (to_emit_ext sender "admin_room" "emergency_alert" data rs1 rs2 Hm).
  destruct (get data "contacts") as [e|contacts]; [reflexivity|].
  destruct (truthy contacts); [|reflexivity].
  destruct contacts as [| | | | |l|]; try reflexivity.
  by rewrite (forEach_notify_ext sender data l rs1 rs2 Hm).
Qed.

End RoundTrip.

(** X24. A connection followed by its disconnect leaves the server as
    it was: the same sockets are connected, every room has the same
    members, and every later event is routed exactly as it would have
    been without that session. *)
Theorem connect_then_disconnect_restores
    (env : Env) (st st1 st2 : State) (sid : string) (token : Token)
    (now : Z) (out1 out2 : list Delivery) :
  reachable env st →
  exec env st (Connect sid token now) = Some (st1, out1) →
  exec env st1 (Disconnect sid) = Some (st2, out2) →
  sockets st2 = sockets st ∧
  (∀ room, members (rooms st2) room = members (rooms st) room) ∧
  (∀ sender ev data,
     route sender ev data (rooms st2) = route sender ev data (rooms st)).
Proof.
  intros Hreach Hconn Hdisc.
  pose proof (reachable_consistent _ _ Hreach) as [Hmem _].
  pose proof (exec_running _ _ _ _ _ Hdisc) as Hrun1.
  destruct (io_use env now token) as [e|socket] eqn:Hauth.
  { destruct (exec_connect_refused _ _ _ _ _ _ _ _ Hconn Hauth) as [-> _].
    assert (Hfresh : sockets st !! sid = None).
    { unfold exec in Hconn. destruct (running st); [|discriminate].
      simpl in Hconn. by destruct (sockets st !! sid). }
    apply exec_disconnect in Hdisc as ([s Hs] & _). congruence. }
  destruct (exec_connect_accepted _ _ _ _ _ _ _ _ Hconn Hauth)
    as (Hfresh & _ & _ & Hsock1 & Hrooms1).
  destruct Hrooms1 as [(joined & Hjoin & Hjoined & _)|(e & _ & _ & Hstop)];
    [|congruence].
  apply exec_disconnect in Hdisc as (_ & _ & Hrooms2 & Hsock2).
  assert (Hrooms : ∀ room,
    members (rooms st2) room = members (rooms st) room).
  { intros room. apply set_eq. intros x.
    rewrite Hrooms2, Hjoined, elem_of_members_leave_all.
    rewrite (elem_of_members_on_connection_iff _ _ _ _ _ _ Hjoin).
    rewrite elem_of_members_join.
    split; [naive_solver|]. intros Hx. split; [by left; left|].
    intros ->. apply Hmem in Hx as [s Hs]. congruence. }
  split; [rewrite Hsock2, Hsock1; by apply delete_insert_id|].
  split; [done|].
  intros sender ev data. by apply route_ext.
Qed.

Lemma connect_then_disconnect_restores_witness :
  sockets Examples.st3 = sockets Examples.st1 ∧
  (∀ room, members (rooms Examples.st3) room
           = members (rooms Examples.st1) room) ∧
  (∀ sender ev data,
     route sender ev data (rooms Examples.st3)
     = route sender ev data (rooms Examples.st1)).
Proof.
  apply (connect_then_disconnect_restores Examples.env0 Examples.st1
           Examples.st2 Examples.st3 Examples.sidB Examples.user_token 100
           [] []).
  - eapply reachable_step; [apply reachable_initial|apply st1_step].
  - apply st2_step.
  - apply st3_step.
Defined.
